(** * Connection and authentication engine of the maximus client

    A shallow embedding of [maximus/_internal/connection.py],
    [maximus/_internal/auth_manager.py], [maximus/_internal/session.py],
    [maximus/_internal/event_dispatcher.py] and
    [maximus/_internal/constants.py], followed by the properties of the
    frame codec, the event router, the listen loop, the session store and
    the authentication state machine.

    Python values are modelled by the float-free fragment of JSON: the
    program builds its frames from [None], booleans, integers, strings,
    lists and string-keyed dictionaries only.  A Python [str] is a list of
    Unicode code points, a Python [int] is an unbounded integer. *)

From Stdlib Require Import ZArith NArith List String Ascii Bool Lia.
Import ListNotations.

Set Warnings "-register-all".

(* ================================================================== *)
(** ** Python values *)

Module Py.

Definition codepoint := N.

(** A Python [str]: the sequence of its code points. *)
Definition pystr := list codepoint.

(** Reading of an ASCII literal of this development as a Python [str]. *)
Definition py (s : string) : pystr :=
  map N_of_ascii (list_ascii_of_string s).

Fixpoint pystr_eqb (a b : pystr) : bool :=
  match a, b with
  | [], [] => true
  | x :: a', y :: b' => N.eqb x y && pystr_eqb a' b'
  | _, _ => false
  end.

(** Values that [json.loads] produces and [json.dumps] accepts, floats
    left out.  A [dict] keeps its keys in insertion order. *)
Inductive json : Type :=
| JNull
| JBool (b : bool)
| JInt (z : Z)
| JStr (s : pystr)
| JList (l : list json)
| JDict (d : list (pystr * json)).

Definition dict := list (pystr * json).

(** [bool(v)]: Python truth value. *)
Definition truthy (v : json) : bool :=
  match v with
  | JNull => false
  | JBool b => b
  | JInt z => negb (Z.eqb z 0)
  | JStr s => match s with [] => false | _ => true end
  | JList l => match l with [] => false | _ => true end
  | JDict d => match d with [] => false | _ => true end
  end.

(** [v == n] for an integer literal [n]: [True == 1] and [False == 0]
    hold in Python, no other non-integer equals an integer here. *)
Definition eq_int (v : json) (n : Z) : bool :=
  match v with
  | JInt z => Z.eqb z n
  | JBool b => Z.eqb (if b then 1 else 0) n
  | _ => false
  end.

(** [v == s] for a string literal [s]. *)
Definition eq_str (v : json) (s : pystr) : bool :=
  match v with
  | JStr t => pystr_eqb t s
  | _ => false
  end.

(** [d.get(k)] on the association list of a [dict]. *)
Fixpoint dict_get {V : Type} (k : pystr) (d : list (pystr * V)) : option V :=
  match d with
  | [] => None
  | (k', v) :: d' => if pystr_eqb k' k then Some v else dict_get k d'
  end.

(** [d[k] = v]: an existing key keeps its position, a new key goes last. *)
Fixpoint dict_set {V : Type} (k : pystr) (v : V) (d : list (pystr * V))
  : list (pystr * V) :=
  match d with
  | [] => [(k, v)]
  | (k', v') :: d' =>
      if pystr_eqb k' k then (k', v) :: d' else (k', v') :: dict_set k v d'
  end.

Definition dict_mem {V : Type} (k : pystr) (d : list (pystr * V)) : bool :=
  match dict_get k d with Some _ => true | None => false end.

(** [dict(pairs)]: later pairs overwrite earlier ones. *)
Definition dict_of_pairs {V : Type} (pairs : list (pystr * V))
  : list (pystr * V) :=
  fold_left (fun d kv => dict_set (fst kv) (snd kv) d) pairs [].

(** Exceptions the engine raises or lets through. *)
Inductive exn : Type :=
| AttributeError
| JSONDecodeError
| TimeoutError
| CancelledError
| ConnectionError (text : string)
| AuthError (text : string) (arg : option json)
| OtherError (text : string).

Inductive result (A : Type) : Type :=
| Ok (a : A)
| Raise (e : exn).
Arguments Ok {A} a.
Arguments Raise {A} e.

(** [v.get(k, default)] on an arbitrary value: only a [dict] has [get]. *)
Definition get (v : json) (k : pystr) (default : json) : result json :=
  match v with
  | JDict d => Ok match dict_get k d with Some x => x | None => default end
  | _ => Raise AttributeError
  end.

End Py.
Export Py.

(* ================================================================== *)
(** ** [json.dumps] and [json.loads]

    The two library functions the frame codec is made of, with the
    arguments the program passes: [json.dumps(message)] (ASCII output,
    separators [", "] and [": "]) and [json.loads(data)] on a [str]. *)

Module Json.

Local Open Scope N_scope.

Definition QUOTE : codepoint := 34.       (* double quote *)
Definition BACKSLASH : codepoint := 92.
Definition SLASH : codepoint := 47.
Definition COMMA : codepoint := 44.
Definition COLON : codepoint := 58.
Definition SPACE : codepoint := 32.
Definition LBRACKET : codepoint := 91.
Definition RBRACKET : codepoint := 93.
Definition LBRACE : codepoint := 123.
Definition RBRACE : codepoint := 125.
Definition MINUS : codepoint := 45.
Definition DOT : codepoint := 46.
Definition ZERO : codepoint := 48.
Definition LOWER_U : codepoint := 117.

(** *** Encoder *)

Definition hex_digit (d : N) : codepoint :=
  if d <? 10 then 48 + d else 87 + d.     (* 0-9, a-f *)

(** ['\\u{0:04x}'.format(n)] for [n < 0x10000]. *)
Definition u_escape (n : N) : pystr :=
  [BACKSLASH; LOWER_U;
   hex_digit (N.shiftr n 12 mod 16); hex_digit (N.shiftr n 8 mod 16);
   hex_digit (N.shiftr n 4 mod 16); hex_digit (n mod 16)].

(** [replace] of [py_encode_basestring_ascii]: the text one code point
    becomes between the quotes. *)
Definition escape_char (c : codepoint) : pystr :=
  if c =? QUOTE then [BACKSLASH; QUOTE]
  else if c =? BACKSLASH then [BACKSLASH; BACKSLASH]
  else if c =? 10 then [BACKSLASH; 110]            (* \n *)
  else if c =? 13 then [BACKSLASH; 114]            (* \r *)
  else if c =? 9 then [BACKSLASH; 116]             (* \t *)
  else if c =? 8 then [BACKSLASH; 98]              (* \b *)
  else if c =? 12 then [BACKSLASH; 102]            (* \f *)
  else if (32 <=? c) && (c <=? 126) then [c]
  else if c <? 65536 then u_escape c
  else
    let n := c - 65536 in
    let s1 := N.lor 55296 (N.land (N.shiftr n 10) 1023) in
    let s2 := N.lor 56320 (N.land n 1023) in
    u_escape s1 ++ u_escape s2.

Definition encode_basestring_ascii (s : pystr) : pystr :=
  QUOTE :: flat_map escape_char s ++ [QUOTE].

(** Decimal digits of a natural number, most significant first. *)
Fixpoint digits_aux (fuel : nat) (n : N) (acc : pystr) : pystr :=
  match fuel with
  | O => acc
  | S fuel' =>
      if n <? 10 then (ZERO + n) :: acc
      else digits_aux fuel' (n / 10) ((ZERO + n mod 10) :: acc)
  end.

Definition digits (n : N) : pystr := digits_aux (S (N.size_nat n)) n [].

(** [int.__repr__]. *)
Definition int_repr (z : Z) : pystr :=
  match z with
  | Z0 => [ZERO]
  | Zpos p => digits (Npos p)
  | Zneg p => MINUS :: digits (Npos p)
  end.

Definition item_separator : pystr := [COMMA; SPACE].
Definition key_separator : pystr := [COLON; SPACE].

Fixpoint json_dumps (v : json) : pystr :=
  match v with
  | JNull => py "null"
  | JBool true => py "true"
  | JBool false => py "false"
  | JInt z => int_repr z
  | JStr s => encode_basestring_ascii s
  | JList l =>
      match l with
      | [] => [LBRACKET; RBRACKET]
      | x :: r =>
          LBRACKET :: json_dumps x
            ++ (fix more (r : list json) : pystr :=
                  match r with
                  | [] => [RBRACKET]
                  | y :: r' => item_separator ++ json_dumps y ++ more r'
                  end) r
      end
  | JDict d =>
      match d with
      | [] => [LBRACE; RBRACE]
      | (k, x) :: r =>
          LBRACE :: encode_basestring_ascii k ++ key_separator
            ++ json_dumps x
            ++ (fix more (r : list (pystr * json)) : pystr :=
                  match r with
                  | [] => [RBRACE]
                  | (k', y) :: r' =>
                      item_separator ++ encode_basestring_ascii k'
                        ++ key_separator ++ json_dumps y ++ more r'
                  end) r
      end
  end.

(** *** Decoder *)

Definition is_ws (c : codepoint) : bool :=
  (c =? 32) || (c =? 9) || (c =? 10) || (c =? 13).

(** [WHITESPACE.match(s, idx).end()] as the remaining text. *)
Fixpoint skip_ws (s : pystr) : pystr :=
  match s with
  | c :: r => if is_ws c then skip_ws r else s
  | [] => []
  end.

Definition is_digit (c : codepoint) : bool := (48 <=? c) && (c <=? 57).

Definition hex_value (c : codepoint) : option N :=
  if is_digit c then Some (c - 48)
  else if (97 <=? c) && (c <=? 102) then Some (c - 87)
  else if (65 <=? c) && (c <=? 70) then Some (c - 55)
  else None.

(** The four hexadecimal digits after a backslash and [u]. *)
Definition decode_uXXXX (s : pystr) : option (N * pystr) :=
  match s with
  | a :: b :: c :: d :: r =>
      match hex_value a, hex_value b, hex_value c, hex_value d with
      | Some x3, Some x2, Some x1, Some x0 =>
          Some (4096 * x3 + 256 * x2 + 16 * x1 + x0, r)
      | _, _, _, _ => None
      end
  | _ => None
  end.

(** The table [BACKSLASH] of the decoder. *)
Definition unescape (esc : codepoint) : option codepoint :=
  if esc =? QUOTE then Some QUOTE
  else if esc =? BACKSLASH then Some BACKSLASH
  else if esc =? SLASH then Some SLASH
  else if esc =? 98 then Some 8
  else if esc =? 102 then Some 12
  else if esc =? 110 then Some 10
  else if esc =? 114 then Some 13
  else if esc =? 116 then Some 9
  else None.

Definition is_high_surrogate (u : N) : bool := (55296 <=? u) && (u <=? 56319).
Definition is_low_surrogate (u : N) : bool := (56320 <=? u) && (u <=? 57343).

(** One backslash-u escape, joined with a following low surrogate escape
    when it is a high surrogate. *)
Definition scan_unicode (s : pystr) : option (codepoint * pystr) :=
  match decode_uXXXX s with
  | None => None
  | Some (uni, r) =>
      if is_high_surrogate uni then
        match r with
        | b :: u :: r' =>
            if (b =? BACKSLASH) && (u =? LOWER_U) then
              match decode_uXXXX r' with
              | None => None
              | Some (uni2, r'') =>
                  if is_low_surrogate uni2 then
                    Some (65536
                          + N.lor (N.shiftl (uni - 55296) 10) (uni2 - 56320),
                          r'')
                  else Some (uni, r)
              end
            else Some (uni, r)
        | _ => Some (uni, r)
        end
      else Some (uni, r)
  end.

(** [scanstring(s, end)] in strict mode, started after the opening
    quote: the decoded string and the text after the closing quote. *)
Fixpoint scanstring (fuel : nat) (s : pystr) : option (pystr * pystr) :=
  match fuel with
  | O => None
  | S fuel' =>
      match s with
      | [] => None
      | c :: r =>
          if c =? QUOTE then Some ([], r)
          else if c =? BACKSLASH then
            match r with
            | [] => None
            | esc :: r1 =>
                if esc =? LOWER_U then
                  match scan_unicode r1 with
                  | None => None
                  | Some (ch, r2) =>
                      match scanstring fuel' r2 with
                      | None => None
                      | Some (str, r3) => Some (ch :: str, r3)
                      end
                  end
                else
                  match unescape esc with
                  | None => None
                  | Some ch =>
                      match scanstring fuel' r1 with
                      | None => None
                      | Some (str, r3) => Some (ch :: str, r3)
                      end
                  end
            end
          else if c <? 32 then None
          else
            match scanstring fuel' r with
            | None => None
            | Some (str, r3) => Some (c :: str, r3)
            end
      end
  end.

Fixpoint scan_digits (s : pystr) (acc : N) : N * pystr :=
  match s with
  | c :: r => if is_digit c then scan_digits r (10 * acc + (c - 48)) else (acc, s)
  | [] => (acc, [])
  end.

(** A fraction or an exponent follows the integer part: the number is a
    float, outside the modelled fragment. *)
Definition float_follows (s : pystr) : bool :=
  match s with
  | c :: d :: r =>
      if c =? DOT then is_digit d
      else if (c =? 101) || (c =? 69) then
        is_digit d
        || (((d =? 43) || (d =? MINUS))
            && match r with e :: _ => is_digit e | [] => false end)
      else false
  | _ => false
  end.

(** [NUMBER_RE.match] followed by [int]: the integer and the rest. *)
Definition match_number (s : pystr) : option (Z * pystr) :=
  let '(neg, s1) :=
    match s with
    | c :: r => if c =? MINUS then (true, r) else (false, s)
    | [] => (false, s)
    end in
  let finish (n : N) (r : pystr) :=
    if float_follows r then None
    else Some (if neg then Z.opp (Z.of_N n) else Z.of_N n, r) in
  match s1 with
  | c :: r =>
      if c =? ZERO then finish 0 r
      else if is_digit c then
        let '(n, r') := scan_digits r (c - 48) in finish n r'
      else None
  | [] => None
  end.

Fixpoint starts_with (p s : pystr) : option pystr :=
  match p, s with
  | [], _ => Some s
  | x :: p', y :: s' => if x =? y then starts_with p' s' else None
  | _ :: _, [] => None
  end.

(** [scan_once], [JSONObject] and [JSONArray]; the two loops are entered
    where a key string, respectively a value, starts. *)
Fixpoint scan_once (fuel : nat) (s : pystr) : option (json * pystr) :=
  match fuel with
  | O => None
  | S fuel' =>
      match s with
      | [] => None
      | c :: r =>
          if c =? QUOTE then
            match scanstring (S (List.length r)) r with
            | Some (str, r') => Some (JStr str, r')
            | None => None
            end
          else if c =? LBRACE then
            match skip_ws r with
            | c1 :: r1 =>
                if c1 =? RBRACE then Some (JDict [], r1)
                else if c1 =? QUOTE then
                  match object_loop fuel' r1 with
                  | Some (pairs, r') => Some (JDict (dict_of_pairs pairs), r')
                  | None => None
                  end
                else None
            | [] => None
            end
          else if c =? LBRACKET then
            match skip_ws r with
            | c1 :: r1 =>
                if c1 =? RBRACKET then Some (JList [], r1)
                else
                  match array_loop fuel' (c1 :: r1) with
                  | Some (values, r') => Some (JList values, r')
                  | None => None
                  end
            | [] => None
            end
          else
            match starts_with (py "null") s with
            | Some r' => Some (JNull, r')
            | None =>
            match starts_with (py "true") s with
            | Some r' => Some (JBool true, r')
            | None =>
            match starts_with (py "false") s with
            | Some r' => Some (JBool false, r')
            | None =>
            match match_number s with
            | Some (z, r') => Some (JInt z, r')
            | None => None
            end end end end
      end
  end
with object_loop (fuel : nat) (s : pystr)
     : option (list (pystr * json) * pystr) :=
  match fuel with
  | O => None
  | S fuel' =>
      match scanstring (S (List.length s)) s with
      | None => None
      | Some (key, s1) =>
          match skip_ws s1 with
          | c :: s2 =>
              if c =? COLON then
                match scan_once fuel' (skip_ws s2) with
                | None => None
                | Some (value, s3) =>
                    match skip_ws s3 with
                    | c' :: s4 =>
                        if c' =? RBRACE then Some ([(key, value)], s4)
                        else if c' =? COMMA then
                          match skip_ws s4 with
                          | q :: s5 =>
                              if q =? QUOTE then
                                match object_loop fuel' s5 with
                                | Some (pairs, r') =>
                                    Some ((key, value) :: pairs, r')
                                | None => None
                                end
                              else None
                          | [] => None
                          end
                        else None
                    | [] => None
                    end
                end
              else None
          | [] => None
          end
      end
  end
with array_loop (fuel : nat) (s : pystr) : option (list json * pystr) :=
  match fuel with
  | O => None
  | S fuel' =>
      match scan_once fuel' s with
      | None => None
      | Some (value, s1) =>
          match skip_ws s1 with
          | c :: s2 =>
              if c =? RBRACKET then Some ([value], s2)
              else if c =? COMMA then
                match array_loop fuel' (skip_ws s2) with
                | Some (values, r') => Some (value :: values, r')
                | None => None
                end
              else None
          | [] => None
          end
      end
  end.

Definition BOM : codepoint := 65279.

(** [json.loads(s)] for a [str]: one value between optional white
    space, anything else is a [JSONDecodeError]. *)
Definition json_loads (s : pystr) : result json :=
  match s with
  | c :: _ => if c =? BOM then Raise JSONDecodeError else
      match scan_once (S (List.length s)) (skip_ws s) with
      | Some (obj, r) =>
          match skip_ws r with
          | [] => Ok obj
          | _ :: _ => Raise JSONDecodeError
          end
      | None => Raise JSONDecodeError
      end
  | [] => Raise JSONDecodeError
  end.

End Json.
Export Json.

(* ================================================================== *)
(** ** State of the engine

    One record per object of the program, and the world they live in: the
    event loop's futures, the environment (disk, socket, clocks, the
    caller's code provider) and the log of what was done, in order. *)

(** The constants of [class Messages] that the engine prints, by name. *)
Module Messages.
Inductive t : Type :=
| WEBSOCKET_CLOSED | FOUND_TOKEN | TOKEN_SENT | PHONE_SENT
| NAVIGATION_EVENTS_SENT | CODE_REQUESTED | SENDING_CODE | CODE_SENT
| CODE_VERIFIED | TOKEN_SAVED | SENDING_TOKEN | TOKEN_INVALID
| REQUESTING_REAUTH | REAUTH_SUCCESSFUL | AUTH_TIMEOUT | PHONE_NOT_FOUND
| TOO_MANY_ATTEMPTS | DEVICE_INIT | ERROR_RECEIVING | ERROR_SAVING_SESSION
| AUTH_ERROR | AUTH_CODE_ERROR | DEBUG_SENDING | DEBUG_RECEIVED
| DEBUG_JSON_PARSE_FAILED | DEVICE_INIT_SENT | PHONE_SENDING.
End Messages.

Definition DEFAULT_CHATS_COUNT : Z := 40.

(** Durations of [constants.py], in milliseconds. *)
Definition AUTH_DELAY : Z := 500.
Definition AUTH_TIMEOUT : Z := 60000.

(** An [asyncio.Future] is named by its rank of creation. *)
Definition handle := nat.

Inductive future_state : Type :=
| Pending
| Finished (value : json)
| Failed (e : exn)
| Cancelled.

Definition done (f : future_state) : bool :=
  match f with Pending => false | _ => true end.

(** What the engine does to the outside, and to its futures. *)
Inductive effect : Type :=
| Print (m : Messages.t) (args : list json)
| Sleep (ms : Z)
| StoreSet (key : pystr) (value : json)
| StoreSave (data : dict) (written : bool)
| TransportSend (data : pystr) (delivered : bool)
| NewFuture (h : handle)
| SetResult (h : handle) (value : json)
| SetException (h : handle) (e : exn)
| CancelFuture (h : handle)
| CodeRequested (n : nat).

(** [SessionManager]: the dictionary [_data], the session file as last
    written, and whether the disk currently accepts a write. *)
Record SessionState : Type := {
  _data : dict;
  session_file : option dict;
  disk_ok : bool
}.

(** [WebSocketConnection]: [_websocket is not None], [_is_connected], and
    the socket itself: open or closed by the peer, and what it carried. *)
Record TransportState : Type := {
  _websocket : bool;
  _is_connected : bool;
  peer_open : bool;
  peer_accepts : bool;
  delivered : list pystr
}.

(** The public sending methods of [MaxConnection], as data: what a
    handler outside the engine may ask of the connection. *)
Inductive conn_op : Type :=
| op_send_message (chat_id : Z) (text : pystr) (reply_to : option pystr)
| op_send_sticker (chat_id sticker_id : Z) (reply_to : option pystr)
| op_send_reaction (chat_id : Z) (message_id reaction_type reaction_id : pystr)
| op_edit_message (chat_id : Z) (message_id text : pystr)
| op_delete_message (chat_id : Z) (message_id : pystr)
| op_send_events (events : list json)
| op_send_auth_start (phone language : pystr)
| op_send_auth_code (token code : json)
| op_send_auth_token (token : json) (interactive : bool) (chats_count : Z)
| op_send_get_chats (chat_ids : list Z)
| op_send_get_contacts (contact_ids : list Z).

(** A registered callable: one of the five bound methods of
    [AuthManager], or a handler of the layers above, which sees the
    payload, may send through the connection and may fail. *)
Inductive handler : Type :=
| on_auth_success
| on_auth_code_requested
| on_auth_code_checked
| on_auth_error
| on_auth_code_error
| external (behaviour : json -> list conn_op * option exn).

(** [MaxConnection]. *)
Record ConnState : Type := {
  _session_data : dict;
  _debug : bool;
  _seq : Z;
  _message_handlers : list (pystr * list handler)
}.

(** The caller's code provider: what its n-th call returns. *)
Definition code_provider := nat -> result json.

(** [AuthManager]. *)
Record AuthState : Type := {
  _auth_future : option handle;
  _code_callback : option code_provider;
  _phone : option pystr
}.

Record World : Type := {
  session : SessionState;
  transport : TransportState;
  conn : ConnState;
  auth : AuthState;
  futures : list future_state;
  clock : nat -> Z;              (* successive readings of the clocks *)
  clock_reads : nat;
  code_calls : nat;
  log : list effect              (* oldest first *)
}.

Definition with_session (s : SessionState) (w : World) : World :=
  {| session := s; transport := transport w; conn := conn w; auth := auth w;
     futures := futures w; clock := clock w; clock_reads := clock_reads w;
     code_calls := code_calls w; log := log w |}.

Definition with_transport (t : TransportState) (w : World) : World :=
  {| session := session w; transport := t; conn := conn w; auth := auth w;
     futures := futures w; clock := clock w; clock_reads := clock_reads w;
     code_calls := code_calls w; log := log w |}.

Definition with_conn (c : ConnState) (w : World) : World :=
  {| session := session w; transport := transport w; conn := c; auth := auth w;
     futures := futures w; clock := clock w; clock_reads := clock_reads w;
     code_calls := code_calls w; log := log w |}.

Definition with_auth (a : AuthState) (w : World) : World :=
  {| session := session w; transport := transport w; conn := conn w; auth := a;
     futures := futures w; clock := clock w; clock_reads := clock_reads w;
     code_calls := code_calls w; log := log w |}.

Definition with_futures (f : list future_state) (w : World) : World :=
  {| session := session w; transport := transport w; conn := conn w;
     auth := auth w; futures := f; clock := clock w;
     clock_reads := clock_reads w; code_calls := code_calls w; log := log w |}.

Definition with_clock_reads (n : nat) (w : World) : World :=
  {| session := session w; transport := transport w; conn := conn w;
     auth := auth w; futures := futures w; clock := clock w;
     clock_reads := n; code_calls := code_calls w; log := log w |}.

Definition with_code_calls (n : nat) (w : World) : World :=
  {| session := session w; transport := transport w; conn := conn w;
     auth := auth w; futures := futures w; clock := clock w;
     clock_reads := clock_reads w; code_calls := n; log := log w |}.

Definition with_log (l : list effect) (w : World) : World :=
  {| session := session w; transport := transport w; conn := conn w;
     auth := auth w; futures := futures w; clock := clock w;
     clock_reads := clock_reads w; code_calls := code_calls w; log := l |}.

(** *** Computations: state passing with exceptions

    An exception keeps the state reached when it was raised. *)

Definition M (A : Type) : Type := World -> result A * World.

Definition ret {A : Type} (a : A) : M A := fun w => (Ok a, w).

Definition raise {A : Type} (e : exn) : M A := fun w => (Raise e, w).

Definition bind {A B : Type} (m : M A) (k : A -> M B) : M B :=
  fun w =>
    match m w with
    | (Ok a, w') => k a w'
    | (Raise e, w') => (Raise e, w')
    end.

Notation "x <- m ;; k" := (bind m (fun x => k))
  (at level 61, m at next level, right associativity).
Notation "m ;; k" := (bind m (fun _ => k))
  (at level 61, right associativity).

Definition lift {A : Type} (r : result A) : M A := fun w => (r, w).

(** Reading and changing the state. *)
Definition gets {A : Type} (f : World -> A) : M A := fun w => (Ok (f w), w).

Definition modify (f : World -> World) : M unit := fun w => (Ok tt, f w).

(** [try: m except e: h e]. *)
Definition catch {A : Type} (m : M A) (h : exn -> M A) : M A :=
  fun w =>
    match m w with
    | (Ok a, w') => (Ok a, w')
    | (Raise e, w') => h e w'
    end.

Definition emit (e : effect) : M unit :=
  modify (fun w => with_log (log w ++ [e]) w).

(** [print(m.format(args))]. *)
Definition print (m : Messages.t) (args : list json) : M unit :=
  emit (Print m args).

(** [await asyncio.sleep(ms)]. *)
Definition sleep (ms : Z) : M unit := emit (Sleep ms).

(** [int(clock() * 1000)]: the next reading of the clock. *)
Definition now_ms : M Z :=
  t <- gets (fun w => clock w (clock_reads w)) ;;
  modify (fun w => with_clock_reads (S (clock_reads w)) w) ;;
  ret t.

(** *** Futures *)

(** [asyncio.Future()]. *)
Definition new_future : M handle :=
  h <- gets (fun w => List.length (futures w)) ;;
  modify (fun w => with_futures (futures w ++ [Pending]) w) ;;
  emit (NewFuture h) ;;
  ret h.

Definition future_of (w : World) (h : handle) : future_state :=
  nth h (futures w) Pending.

Fixpoint list_update {A : Type} (n : nat) (x : A) (l : list A) : list A :=
  match l, n with
  | [], _ => []
  | _ :: r, O => x :: r
  | y :: r, S n' => y :: list_update n' x r
  end.

Definition set_future (h : handle) (f : future_state) (e : effect) : M unit :=
  modify (fun w => with_futures (list_update h f (futures w)) w) ;;
  emit e.

(** [fut.set_result(v)], [fut.set_exception(e)], [fut.cancel()], each on
    a future that is not done (the engine guards every call). *)
Definition set_result (h : handle) (v : json) : M unit :=
  set_future h (Finished v) (SetResult h v).

Definition set_exception (h : handle) (e : exn) : M unit :=
  set_future h (Failed e) (SetException h e).

Definition cancel (h : handle) : M unit :=
  set_future h Cancelled (CancelFuture h).

(* ================================================================== *)
(** ** [session.py]: [SessionManager] *)

Module SessionManager.

Definition with_data (d : dict) (s : SessionState) : SessionState :=
  {| _data := d; session_file := session_file s; disk_ok := disk_ok s |}.

(** [get(key, default)]. *)
Definition get (key : pystr) (default : json) : M json :=
  gets (fun w => match dict_get key (_data (session w)) with
                 | Some v => v
                 | None => default
                 end).

(** [set(key, value)]. *)
Definition set (key : pystr) (value : json) : M unit :=
  modify (fun w =>
            with_session (with_data (dict_set key value (_data (session w)))
                            (session w)) w) ;;
  emit (StoreSet key value).

(** [save()]: the file receives [_data]; a refused write is reported on
    the console and swallowed. *)
Definition save : M unit :=
  s <- gets session ;;
  if disk_ok s then
    modify (with_session {| _data := _data s; session_file := Some (_data s);
                            disk_ok := disk_ok s |}) ;;
    emit (StoreSave (_data s) true)
  else
    emit (StoreSave (_data s) false) ;;
    print Messages.ERROR_SAVING_SESSION [].

(** [get_all()]: a copy of [_data]. *)
Definition get_all : M dict := gets (fun w => _data (session w)).

End SessionManager.

(* ================================================================== *)
(** ** [connection.py]: [WebSocketConnection] *)

(** What one [await asyncio.wait_for(receive(), timeout=1.0)] meets on an
    open adapter. *)
Inductive recv_outcome : Type :=
| RecvData (data : pystr)
| RecvTimeout
| RecvClosed
| RecvError (text : string).

Module WebSocketConnection.

Definition with_is_connected (b : bool) (t : TransportState) : TransportState :=
  {| _websocket := _websocket t; _is_connected := b; peer_open := peer_open t;
     peer_accepts := peer_accepts t; delivered := delivered t |}.

(** [connect(url, headers)]. *)
Definition connect : M unit :=
  t <- gets transport ;;
  if peer_accepts t then
    modify (with_transport {| _websocket := true; _is_connected := true;
                              peer_open := true;
                              peer_accepts := peer_accepts t;
                              delivered := delivered t |})
  else raise (ConnectionError "Failed to connect").

(** [send(data)]. *)
Definition send (data : pystr) : M unit :=
  t <- gets transport ;;
  if negb (_websocket t) || negb (_is_connected t) then
    emit (TransportSend data false) ;;
    raise (ConnectionError "Not connected")
  else if peer_open t then
    modify (with_transport {| _websocket := _websocket t;
                              _is_connected := _is_connected t;
                              peer_open := peer_open t;
                              peer_accepts := peer_accepts t;
                              delivered := delivered t ++ [data] |}) ;;
    emit (TransportSend data true)
  else
    modify (with_transport (with_is_connected false t)) ;;
    emit (TransportSend data false) ;;
    raise (ConnectionError "Connection closed").

(** [receive()] under the one-second [wait_for] of the listen loop. *)
Definition receive (o : recv_outcome) : M pystr :=
  t <- gets transport ;;
  if negb (_websocket t) || negb (_is_connected t) then
    raise (ConnectionError "Connection closed")
  else
    match o with
    | RecvData data => ret data
    | RecvTimeout => raise TimeoutError
    | RecvClosed =>
        modify (with_transport (with_is_connected false t)) ;;
        raise (ConnectionError "Connection closed")
    | RecvError text => raise (OtherError text)
    end.

(** [close()]. *)
Definition close : M unit :=
  t <- gets transport ;;
  modify (with_transport
            {| _websocket := _websocket t; _is_connected := false;
               peer_open := if _websocket t then false else peer_open t;
               peer_accepts := peer_accepts t;
               delivered := delivered t |}).

Definition is_connected : M bool :=
  gets (fun w => _is_connected (transport w)).

End WebSocketConnection.

(** [call_handlers(handlers, payload)] of [constants.py]: each handler in
    turn, the next one only after the previous one returned. *)
Fixpoint call_handlers {H : Type} (run : H -> json -> M unit)
    (handlers : list H) (payload : json) : M unit :=
  match handlers with
  | [] => ret tt
  | h :: rest => run h payload ;; call_handlers run rest payload
  end.

(* ================================================================== *)
(** ** [connection.py]: [MaxConnection] *)

Module MaxConnection.

Definition with_seq (n : Z) (c : ConnState) : ConnState :=
  {| _session_data := _session_data c; _debug := _debug c; _seq := n;
     _message_handlers := _message_handlers c |}.

Definition with_handlers (hs : list (pystr * list handler)) (c : ConnState)
  : ConnState :=
  {| _session_data := _session_data c; _debug := _debug c; _seq := _seq c;
     _message_handlers := hs |}.

(** [self._session_data.get(key, default)]. *)
Definition session_get (key : pystr) (default : json) : M json :=
  gets (fun w => match dict_get key (_session_data (conn w)) with
                 | Some v => v
                 | None => default
                 end).

Definition get_seq : M Z := gets (fun w => _seq (conn w)).

Definition is_connected : M bool := WebSocketConnection.is_connected.

Definition disconnect : M unit := WebSocketConnection.close.

(** [register_event_handler(event, handler)]. *)
Definition register_event_handler (event : pystr) (h : handler) : M unit :=
  modify (fun w =>
    let hs := _message_handlers (conn w) in
    let hs1 := if dict_mem event hs then hs else dict_set event [] hs in
    let old := match dict_get event hs1 with Some l => l | None => [] end in
    with_conn (with_handlers (dict_set event (old ++ [h]) hs1) (conn w)) w).

(** [_create_message(opcode, payload, cmd=0)]. *)
Definition _create_message (opcode : Z) (payload : json) (cmd : Z) : M json :=
  modify (fun w => with_conn (with_seq (_seq (conn w) + 1)%Z (conn w)) w) ;;
  ver <- session_get (py "version") (JInt 11) ;;
  seq <- get_seq ;;
  ret (JDict [(py "ver", ver);
              (py "cmd", JInt cmd);
              (py "seq", JInt seq);
              (py "opcode", JInt opcode);
              (py "payload", payload)]).

(** [_send(message)]. *)
Definition _send (message : json) : M unit :=
  let data := json_dumps message in
  debug <- gets (fun w => _debug (conn w)) ;;
  (if debug then print Messages.DEBUG_SENDING [message] else ret tt) ;;
  WebSocketConnection.send data.

(** [if reply_to: message_data["replyTo"] = reply_to]. *)
Definition with_reply_to (reply_to : option pystr) (message_data : dict) : dict :=
  match reply_to with
  | Some (c :: r) => dict_set (py "replyTo") (JStr (c :: r)) message_data
  | _ => message_data
  end.

Definition send_message (chat_id : Z) (text : pystr) (reply_to : option pystr)
  : M Z :=
  cid <- now_ms ;;
  let message_data :=
    with_reply_to reply_to
      [(py "text", JStr text); (py "cid", JInt cid);
       (py "elements", JList []); (py "attaches", JList [])] in
  let payload :=
    JDict [(py "chatId", JInt chat_id); (py "message", JDict message_data);
           (py "notify", JBool true)] in
  message <- _create_message 64 payload 0 ;;
  _send message ;;
  get_seq.

Definition send_sticker (chat_id sticker_id : Z) (reply_to : option pystr)
  : M Z :=
  cid <- now_ms ;;
  let message_data :=
    with_reply_to reply_to
      [(py "cid", JInt cid);
       (py "attaches",
        JList [JDict [(py "_type", JStr (py "STICKER"));
                      (py "stickerId", JInt sticker_id)]])] in
  let payload :=
    JDict [(py "chatId", JInt chat_id); (py "message", JDict message_data);
           (py "notify", JBool true)] in
  message <- _create_message 64 payload 0 ;;
  _send message ;;
  get_seq.

Definition send_reaction (chat_id : Z)
    (message_id reaction_type reaction_id : pystr) : M Z :=
  let payload :=
    JDict [(py "chatId", JInt chat_id); (py "messageId", JStr message_id);
           (py "reaction",
            JDict [(py "reactionType", JStr reaction_type);
                   (py "id", JStr reaction_id)])] in
  message <- _create_message 178 payload 0 ;;
  _send message ;;
  get_seq.

Definition edit_message (chat_id : Z) (message_id text : pystr) : M Z :=
  let payload :=
    JDict [(py "chatId", JInt chat_id); (py "messageId", JStr message_id);
           (py "text", JStr text)] in
  message <- _create_message 21 payload 0 ;;
  _send message ;;
  get_seq.

Definition delete_message (chat_id : Z) (message_id : pystr) : M Z :=
  let payload :=
    JDict [(py "chatId", JInt chat_id); (py "messageId", JStr message_id)] in
  message <- _create_message 22 payload 0 ;;
  _send message ;;
  get_seq.

Definition send_events (events : list json) : M Z :=
  let payload := JDict [(py "events", JList events)] in
  message <- _create_message 5 payload 0 ;;
  _send message ;;
  get_seq.

Definition send_auth_start (phone language : pystr) : M Z :=
  let payload :=
    JDict [(py "phone", JStr phone); (py "type", JStr (py "START_AUTH"));
           (py "language", JStr language)] in
  message <- _create_message 17 payload 0 ;;
  _send message ;;
  get_seq.

Definition send_auth_code (token verify_code : json) : M Z :=
  let payload :=
    JDict [(py "token", token); (py "verifyCode", verify_code);
           (py "authTokenType", JStr (py "CHECK_CODE"))] in
  message <- _create_message 18 payload 0 ;;
  _send message ;;
  get_seq.

Definition send_auth_token (token : json) (interactive : bool)
    (chats_count : Z) : M Z :=
  let payload :=
    JDict [(py "interactive", JBool interactive); (py "token", token);
           (py "chatsCount", JInt chats_count); (py "chatsSync", JInt 0);
           (py "contactsSync", JInt 0); (py "presenceSync", JInt 0);
           (py "draftsSync", JInt 0)] in
  message <- _create_message 19 payload 0 ;;
  _send message ;;
  get_seq.

Definition send_get_chats (chat_ids : list Z) : M Z :=
  let payload := JDict [(py "chatIds", JList (map JInt chat_ids))] in
  message <- _create_message 48 payload 0 ;;
  _send message ;;
  get_seq.

Definition send_get_contacts (contact_ids : list Z) : M Z :=
  let payload := JDict [(py "contactIds", JList (map JInt contact_ids))] in
  message <- _create_message 32 payload 0 ;;
  _send message ;;
  get_seq.

(** [_get_user_agent_dict()]. *)
Definition _get_user_agent_dict : M json :=
  device_type <- session_get (py "device_type") (JStr (py "ANDROID")) ;;
  locale <- session_get (py "locale") (JStr (py "ru")) ;;
  device_locale <- session_get (py "device_locale") (JStr (py "ru")) ;;
  os_version <- session_get (py "os_version") (JStr (py "Windows")) ;;
  device_name <- session_get (py "device_name") (JStr (py "Chrome")) ;;
  user_agent <- session_get (py "user_agent") (JStr []) ;;
  app_version <- session_get (py "app_version") (JStr (py "25.12.3")) ;;
  screen <- session_get (py "screen") (JStr (py "1080x1920 1.0x")) ;;
  timezone <- session_get (py "timezone") (JStr (py "Europe/Moscow")) ;;
  ret (JDict [(py "deviceType", device_type); (py "locale", locale);
              (py "deviceLocale", device_locale);
              (py "osVersion", os_version); (py "deviceName", device_name);
              (py "headerUserAgent", user_agent);
              (py "appVersion", app_version); (py "screen", screen);
              (py "timezone", timezone)]).

(** [v[:8]]: only sequences can be sliced. *)
Definition slice8 (v : json) : result json :=
  match v with
  | JStr s => Ok (JStr (firstn 8 s))
  | JList l => Ok (JList (firstn 8 l))
  | _ => Raise (OtherError "TypeError")
  end.

(** [_initialize()]. *)
Definition _initialize : M unit :=
  print Messages.DEVICE_INIT [] ;;
  user_agent <- _get_user_agent_dict ;;
  device_id <- session_get (py "device_id") (JStr []) ;;
  let init_payload :=
    JDict [(py "userAgent", user_agent); (py "deviceId", device_id)] in
  message <- _create_message 6 init_payload 0 ;;
  _send message ;;
  device_id' <- session_get (py "device_id") (JStr []) ;;
  device_id_short <- lift (slice8 device_id') ;;
  print Messages.DEVICE_INIT_SENT [device_id_short].

(** [connect()], up to the start of the listening task. *)
Definition connect : M unit :=
  WebSocketConnection.connect ;;
  _initialize.

(** A sending method named by a [conn_op]. *)
Definition run_op (op : conn_op) : M Z :=
  match op with
  | op_send_message chat_id text reply_to => send_message chat_id text reply_to
  | op_send_sticker chat_id sticker_id reply_to =>
      send_sticker chat_id sticker_id reply_to
  | op_send_reaction chat_id message_id reaction_type reaction_id =>
      send_reaction chat_id message_id reaction_type reaction_id
  | op_edit_message chat_id message_id text => edit_message chat_id message_id text
  | op_delete_message chat_id message_id => delete_message chat_id message_id
  | op_send_events events => send_events events
  | op_send_auth_start phone language => send_auth_start phone language
  | op_send_auth_code token code => send_auth_code token code
  | op_send_auth_token token interactive chats_count =>
      send_auth_token token interactive chats_count
  | op_send_get_chats chat_ids => send_get_chats chat_ids
  | op_send_get_contacts contact_ids => send_get_contacts contact_ids
  end.

(** The table of [_handle_message]: the event a [(cmd, opcode)] pair
    names, if any. *)
Definition event_name (cmd opcode : json) : option pystr :=
  if eq_int cmd 1 then
    if eq_int opcode 19 then Some (py "auth_success")
    else if eq_int opcode 17 then Some (py "auth_code_requested")
    else if eq_int opcode 18 then Some (py "auth_code_checked")
    else if eq_int opcode 64 then Some (py "message_sent")
    else if eq_int opcode 32 then Some (py "contacts_update")
    else if eq_int opcode 48 then Some (py "chats_update")
    else None
  else if eq_int cmd 3 then
    if eq_int opcode 19 then Some (py "auth_error")
    else if eq_int opcode 17 then Some (py "auth_code_error")
    else None
  else if eq_int cmd 0 then
    if eq_int opcode 128 then Some (py "new_message")
    else None
  else None.

Inductive loop_status : Type := Continue | Break.

Section Dispatch.

(** What calling a registered handler does: the handlers are the
    callables the upper layers registered. *)
Variable run_handler : handler -> json -> M unit.

(** [_handle_message(message)]. *)
Definition _handle_message (message : json) : M unit :=
  match message with
  | JDict (kv :: d) =>
      let m := kv :: d in
      let opcode :=
        match dict_get (py "opcode") m with Some v => v | None => JNull end in
      let cmd :=
        match dict_get (py "cmd") m with Some v => v | None => JNull end in
      let payload :=
        match dict_get (py "payload") m with Some v => v | None => JDict [] end in
      match event_name cmd opcode with
      | Some name =>
          registered <- gets (fun w => dict_get name (_message_handlers (conn w))) ;;
          match registered with
          | Some handlers => call_handlers run_handler handlers payload
          | None => ret tt
          end
      | None => ret tt
      end
  | _ => ret tt
  end.

(** [json.loads], as the listen loop uses it. *)
Variable loads : pystr -> result json.

(** The inner [try] of [_listen]: decode, dispatch, and skip what does
    not decode. *)
Definition decode_and_dispatch (data : pystr) : M unit :=
  catch
    (message <- lift (loads data) ;;
     debug <- gets (fun w => _debug (conn w)) ;;
     (if debug then print Messages.DEBUG_RECEIVED [message] else ret tt) ;;
     _handle_message message)
    (fun e =>
       match e with
       | JSONDecodeError =>
           debug <- gets (fun w => _debug (conn w)) ;;
           if debug then print Messages.DEBUG_JSON_PARSE_FAILED [JStr data]
           else ret tt
       | _ => raise e
       end).

(** One turn of the [while] of [_listen], entered with the adapter
    connected: whether the loop goes on.  [CancelledError] is no
    [Exception] and leaves the loop as it is raised. *)
Definition listen_turn (o : recv_outcome) : M loop_status :=
  catch
    (data <- WebSocketConnection.receive o ;;
     match data with
     | [] => ret Continue
     | _ :: _ => decode_and_dispatch data ;; ret Continue
     end)
    (fun e =>
       match e with
       | TimeoutError => ret Continue
       | ConnectionError _ =>
           print Messages.WEBSOCKET_CLOSED [] ;; ret Break
       | CancelledError => raise e
       | _ => print Messages.ERROR_RECEIVING [] ;; ret Continue
       end).

(** [_listen()]: the loop over what the socket brings, until the
    adapter is no longer connected or the loop breaks; [Continue] when
    it is still listening after the last arrival. *)
Fixpoint _listen (arrivals : list recv_outcome) : M loop_status :=
  connected <- is_connected ;;
  if connected then
    match arrivals with
    | [] => ret Continue
    | o :: rest =>
        status <- listen_turn o ;;
        match status with
        | Continue => _listen rest
        | Break => ret Break
        end
    end
  else ret Break.

End Dispatch.

End MaxConnection.

(* ================================================================== *)
(** ** [auth_manager.py]: [AuthManager] *)

Module AuthManager.

Definition set_auth_future (h : handle) : M unit :=
  modify (fun w =>
     with_auth {| _auth_future := Some h;
                  _code_callback := _code_callback (auth w);
                  _phone := _phone (auth w) |} w).

Definition set_code_callback (cb : option code_provider) : M unit :=
  modify (fun w =>
     with_auth {| _auth_future := _auth_future (auth w);
                  _code_callback := cb;
                  _phone := _phone (auth w) |} w).

Definition set_phone (phone : pystr) : M unit :=
  modify (fun w =>
     with_auth {| _auth_future := _auth_future (auth w);
                  _code_callback := _code_callback (auth w);
                  _phone := Some phone |} w).

(** [self._auth_future and not self._auth_future.done()]: the future of
    the slot when the test holds. *)
Definition pending_future : M (option handle) :=
  gets (fun w => match _auth_future (auth w) with
                 | Some h => if done (future_of w h) then None else Some h
                 | None => None
                 end).

(** [_setup_handlers()]. *)
Definition _setup_handlers : M unit :=
  MaxConnection.register_event_handler (py "auth_success") on_auth_success ;;
  MaxConnection.register_event_handler (py "auth_code_requested")
    on_auth_code_requested ;;
  MaxConnection.register_event_handler (py "auth_code_checked")
    on_auth_code_checked ;;
  MaxConnection.register_event_handler (py "auth_error") on_auth_error ;;
  MaxConnection.register_event_handler (py "auth_code_error")
    on_auth_code_error.

(** The two navigation events, stamped with two readings of the clock. *)
Definition navigation_events : M (list json) :=
  t1 <- now_ms ;;
  t2 <- now_ms ;;
  ret [JDict [(py "type", JStr (py "COLD_START")); (py "time", JInt t1)];
       JDict [(py "type", JStr (py "GO")); (py "page", JInt 1);
              (py "time", JInt t2)]].

(** [authenticate(phone, code_callback)] up to its [await
    self._auth_future]: the future the caller is left waiting on, or
    [None] when the call returns without waiting. *)
Definition authenticate (phone : option pystr)
    (code_callback : option code_provider) : M (option handle) :=
  token <- SessionManager.get (py "token") JNull ;;
  if truthy token then
    print Messages.FOUND_TOKEN [] ;;
    sleep AUTH_DELAY ;;
    MaxConnection.send_auth_token token false DEFAULT_CHATS_COUNT ;;
    print Messages.TOKEN_SENT [] ;;
    h <- new_future ;;
    set_auth_future h ;;
    ret (Some h)
  else
    match phone with
    | Some (c :: r) =>
        let phone := c :: r in
        print Messages.PHONE_SENDING [JStr phone] ;;
        set_phone phone ;;
        SessionManager.set (py "phone") (JStr phone) ;;
        SessionManager.save ;;
        set_code_callback code_callback ;;
        MaxConnection.send_auth_start phone (py "ru") ;;
        print Messages.PHONE_SENT [] ;;
        events <- navigation_events ;;
        MaxConnection.send_events events ;;
        print Messages.NAVIGATION_EVENTS_SENT [] ;;
        h <- new_future ;;
        set_auth_future h ;;
        ret (Some h)
    | _ => ret None
    end.


(** [_on_auth_success(payload)]. *)
Definition _on_auth_success (payload : json) : M unit :=
  new_token <- lift (get payload (py "token") JNull) ;;
  (if truthy new_token then
     SessionManager.set (py "token") new_token ;;
     SessionManager.save
   else ret tt) ;;
  p <- pending_future ;;
  match p with
  | Some h => set_result h payload
  | None => ret tt
  end.

(** [self._code_callback()], awaited when it is a coroutine. *)
Definition call_code_callback (f : code_provider) : M json :=
  n <- gets code_calls ;;
  modify (with_code_calls (S n)) ;;
  emit (CodeRequested n) ;;
  lift (f n).

(** [_on_auth_code_requested(payload)]. *)
Definition _on_auth_code_requested (payload : json) : M unit :=
  token <- lift (get payload (py "token") JNull) ;;
  print Messages.CODE_REQUESTED [] ;;
  callback <- gets (fun w => _code_callback (auth w)) ;;
  match callback with
  | Some f =>
      code <- call_code_callback f ;;
      if truthy code then
        print Messages.SENDING_CODE [] ;;
        MaxConnection.send_auth_code token code ;;
        print Messages.CODE_SENT []
      else ret tt
  | None => ret tt
  end.

(** [_on_auth_code_checked(payload)]. *)
Definition _on_auth_code_checked (payload : json) : M unit :=
  token_attrs <- lift (get payload (py "tokenAttrs") (JDict [])) ;;
  login <- lift (get token_attrs (py "LOGIN") (JDict [])) ;;
  login_token <- lift (get login (py "token") JNull) ;;
  if truthy login_token then
    print Messages.CODE_VERIFIED [] ;;
    SessionManager.set (py "token") login_token ;;
    SessionManager.save ;;
    print Messages.TOKEN_SAVED [] ;;
    print Messages.SENDING_TOKEN [] ;;
    MaxConnection.send_auth_token login_token false DEFAULT_CHATS_COUNT ;;
    print Messages.TOKEN_SENT []
  else ret tt.

(** [await asyncio.wait_for(fut, timeout=AUTH_TIMEOUT)] inside the
    handler of [auth_error], with its [try]/[except].  The listening task
    is held by this handler and dispatches nothing meanwhile, so a future
    that is pending when the wait starts is still pending when the
    timeout fires: [wait_for] cancels it and raises [TimeoutError]. *)
Definition wait_for_reauth (h : handle) : M unit :=
  f <- gets (fun w => future_of w h) ;;
  match f with
  | Pending => cancel h ;; print Messages.AUTH_TIMEOUT []
  | Finished _ => print Messages.REAUTH_SUCCESSFUL []
  | Failed TimeoutError => print Messages.AUTH_TIMEOUT []
  | Failed e => raise e
  | Cancelled => raise CancelledError
  end.

(** The test of [_on_auth_error] for a rejected token. *)
Definition is_token_invalid (error message : json) : bool :=
  eq_str error (py "login.token") || eq_str message (py "FAIL_LOGIN_TOKEN").

(** [_on_auth_error(payload)]. *)
Definition _on_auth_error (payload : json) : M unit :=
  error <- lift (get payload (py "error") JNull) ;;
  message <- lift (get payload (py "message") JNull) ;;
  print Messages.AUTH_ERROR [message] ;;
  if is_token_invalid error message then
    print Messages.TOKEN_INVALID [] ;;
    SessionManager.set (py "token") JNull ;;
    SessionManager.save ;;
    known <- gets (fun w => _phone (auth w)) ;;
    match known with
    | Some (c :: r) =>
        let phone := c :: r in
        print Messages.REQUESTING_REAUTH [] ;;
        MaxConnection.send_auth_start phone (py "ru") ;;
        events <- navigation_events ;;
        MaxConnection.send_events events ;;
        h <- new_future ;;
        set_auth_future h ;;
        wait_for_reauth h
    | _ =>
        print Messages.PHONE_NOT_FOUND [] ;;
        p <- pending_future ;;
        match p with
        | Some h => set_exception h (AuthError "Phone number not found" None)
        | None => ret tt
        end
    end
  else
    p <- pending_future ;;
    match p with
    | Some h => set_exception h (AuthError "Auth error: " (Some message))
    | None => ret tt
    end.

(** [_on_auth_code_error(payload)]. *)
Definition _on_auth_code_error (payload : json) : M unit :=
  error <- lift (get payload (py "error") JNull) ;;
  message <- lift (get payload (py "message") JNull) ;;
  localized_message <- lift (get payload (py "localizedMessage") message) ;;
  print Messages.AUTH_CODE_ERROR [localized_message] ;;
  (if eq_str error (py "error.limit.violate")
   then print Messages.TOO_MANY_ATTEMPTS []
   else ret tt) ;;
  p <- pending_future ;;
  match p with
  | Some h =>
      set_exception h (AuthError "Auth code error: " (Some localized_message))
  | None => ret tt
  end.

(** A handler of the upper layers: its sends in order, then its own
    failure if it has one. *)
Fixpoint run_ops (ops : list conn_op) : M unit :=
  match ops with
  | [] => ret tt
  | op :: rest => MaxConnection.run_op op ;; run_ops rest
  end.

(** Calling a registered handler. *)
Definition run_handler (h : handler) (payload : json) : M unit :=
  match h with
  | on_auth_success => _on_auth_success payload
  | on_auth_code_requested => _on_auth_code_requested payload
  | on_auth_code_checked => _on_auth_code_checked payload
  | on_auth_error => _on_auth_error payload
  | on_auth_code_error => _on_auth_code_error payload
  | external behaviour =>
      run_ops (fst (behaviour payload)) ;;
      match snd (behaviour payload) with
      | Some e => raise e
      | None => ret tt
      end
  end.

End AuthManager.

(* ================================================================== *)
(** ** The engine at work *)

(** The world when [MaxClient.start] has built the connection and the
    authentication manager over a loaded session: nothing sent, no future
    created, the five handlers of the manager registered. *)
Definition fresh_world (data : dict) (debug : bool) (accepts disk : bool)
    (ticks : nat -> Z) : World :=
  snd (AuthManager._setup_handlers
         {| session := {| _data := data; session_file := None; disk_ok := disk |};
            transport := {| _websocket := false; _is_connected := false;
                            peer_open := false; peer_accepts := accepts;
                            delivered := [] |};
            conn := {| _session_data := data; _debug := debug; _seq := 0;
                       _message_handlers := [] |};
            auth := {| _auth_future := None; _code_callback := None;
                       _phone := None |};
            futures := []; clock := ticks; clock_reads := 0; code_calls := 0;
            log := [] |}).

(** What the tasks of the client do to the engine, one step at a time. *)
Inductive action : Type :=
| Connect
| Authenticate (phone : option pystr) (code_callback : option code_provider)
| Arrival (o : recv_outcome)
| Call (op : conn_op)
| Register (event : pystr) (behaviour : json -> list conn_op * option exn)
| Disconnect
| PeerCloses.

Section Engine.

Variable loads : pystr -> result json.

Definition step (a : action) (w : World) : World :=
  match a with
  | Connect => snd (MaxConnection.connect w)
  | Authenticate phone code_callback =>
      snd (AuthManager.authenticate phone code_callback w)
  | Arrival o =>
      if _is_connected (transport w)
      then snd (MaxConnection.listen_turn AuthManager.run_handler loads o w)
      else w
  | Call op => snd (MaxConnection.run_op op w)
  | Register event behaviour =>
      snd (MaxConnection.register_event_handler event (external behaviour) w)
  | Disconnect => snd (MaxConnection.disconnect w)
  | PeerCloses =>
      let t := transport w in
      with_transport {| _websocket := _websocket t;
                        _is_connected := _is_connected t;
                        peer_open := false; peer_accepts := peer_accepts t;
                        delivered := delivered t |} w
  end.

Definition run (actions : list action) (w : World) : World :=
  fold_left (fun w a => step a w) actions w.

End Engine.

(* ================================================================== *)
(** ** Observations on a log *)

(** The wire envelope. *)
Definition envelope (ver : json) (cmd seq opcode : Z) (payload : json) : json :=
  JDict [(py "ver", ver); (py "cmd", JInt cmd); (py "seq", JInt seq);
         (py "opcode", JInt opcode); (py "payload", payload)].

(** The protocol version a connection stamps on its frames. *)
Definition version_of (w : World) : json :=
  match dict_get (py "version") (_session_data (conn w)) with
  | Some v => v
  | None => JInt 11
  end.

(** The texts handed to the transport, in order. *)
Fixpoint sent (l : list effect) : list pystr :=
  match l with
  | [] => []
  | TransportSend data _ :: r => data :: sent r
  | _ :: r => sent r
  end.

(** The value the session store holds under the key [token]. *)
Definition session_token (w : World) : json :=
  match dict_get (py "token") (_data (session w)) with
  | Some v => v
  | None => JNull
  end.

(** The adapter is connected and the socket is open: a send goes through. *)
Definition online (w : World) : Prop :=
  _websocket (transport w) = true /\ _is_connected (transport w) = true
  /\ peer_open (transport w) = true.

Definition start_auth_payload (phone : pystr) : json :=
  JDict [(py "phone", JStr phone); (py "type", JStr (py "START_AUTH"));
         (py "language", JStr (py "ru"))].

Definition token_auth_payload (token : json) : json :=
  JDict [(py "interactive", JBool false); (py "token", token);
         (py "chatsCount", JInt 40); (py "chatsSync", JInt 0);
         (py "contactsSync", JInt 0); (py "presenceSync", JInt 0);
         (py "draftsSync", JInt 0)].

Definition navigation_payload (t1 t2 : Z) : json :=
  JDict [(py "events",
          JList [JDict [(py "type", JStr (py "COLD_START")); (py "time", JInt t1)];
                 JDict [(py "type", JStr (py "GO")); (py "page", JInt 1);
                        (py "time", JInt t2)]])].

(** [payload.get(key)] on the dictionary of a payload. *)
Definition payload_field (d : dict) (key : pystr) : json :=
  match dict_get key d with Some v => v | None => JNull end.

(** A world to try the engine on: an empty session, the adapter connected
    to an open socket, the five handlers registered. *)
Definition sample_world : World :=
  snd (WebSocketConnection.connect
         (fresh_world [(py "version", JInt 11); (py "token", JNull)]
            false true true (fun n => 1000 + Z.of_nat n)%Z)).

(** The opcode written in a text of the wire, when it decodes. *)
Definition opcode_of (data : pystr) : option json :=
  match json_loads data with
  | Ok (JDict d) => dict_get (py "opcode") d
  | _ => None
  end.

Definition is_telemetry (data : pystr) : bool :=
  match opcode_of data with
  | Some v => eq_int v 5
  | None => false
  end.




Definition is_dict (v : json) : bool :=
  match v with JDict _ => true | _ => false end.




(** The handlers registered for an event, in order of registration. *)
Definition registered (w : World) (event : pystr) : list handler :=
  match dict_get event (_message_handlers (conn w)) with
  | Some l => l
  | None => []
  end.

(** [message.get(key, default)] on a decoded message. *)
Definition message_field (message : json) (key : pystr) (default : json) : json :=
  match message with
  | JDict d => match dict_get key d with Some v => v | None => default end
  | _ => default
  end.

(** The integer a value compares equal to, if any: Python compares
    [True] and [False] equal to 1 and 0. *)
Definition as_int (v : json) : option Z :=
  match v with
  | JInt z => Some z
  | JBool b => Some (if b then 1 else 0)%Z
  | _ => None
  end.

(** The event a decoded message is routed to. *)
Definition event_of (message : json) : option pystr :=
  match message with
  | JDict (_ :: _) =>
      MaxConnection.event_name (message_field message (py "cmd") JNull)
        (message_field message (py "opcode") JNull)
  | _ => None
  end.

(** The adapter holds a socket and believes it is connected. *)
Definition adapter_up (w : World) : Prop :=
  _websocket (transport w) = true /\ _is_connected (transport w) = true.

(** A line on the console, unconditionally or in debug mode only. *)
Definition note (w : World) (m : Messages.t) : World :=
  with_log (log w ++ [Print m []]) w.

Definition debug_note (w : World) (m : Messages.t) (args : list json) : World :=
  if _debug (conn w) then with_log (log w ++ [Print m args]) w else w.

(** The adapter after it has seen the connection closed. *)
Definition hung_up (w : World) : World :=
  with_transport (WebSocketConnection.with_is_connected false (transport w)) w.

(** The opcodes of the frames the connection builds. *)
Definition opcodes : list Z := [5; 6; 17; 18; 19; 21; 22; 32; 48; 64; 178]%Z.

(** [data] is the text of a frame numbered [n] with [cmd] 0, stamped
    with the version [ver]. *)
Definition is_frame (ver : json) (n : Z) (data : pystr) : Prop :=
  exists (opcode : Z) (payload : json),
    In opcode opcodes /\ data = json_dumps (envelope ver 0 n opcode payload).

(** The texts are frames numbered from [n] on, without a gap. *)
Fixpoint numbered (ver : json) (n : Z) (l : list pystr) : Prop :=
  match l with
  | [] => True
  | data :: r => is_frame ver n data /\ numbered ver (n + 1) r
  end.

(** The texts the socket accepted, in order. *)
Fixpoint delivered_of (l : list effect) : list pystr :=
  match l with
  | [] => []
  | TransportSend data true :: r => data :: delivered_of r
  | _ :: r => delivered_of r
  end.

(** Replaying the future events of a log over the flags "done" of the
    futures: a creation must name the next unused handle, a completion
    must meet a future that exists and is not done. *)
Fixpoint track (l : list effect) (st : list bool) : option (list bool) :=
  match l with
  | [] => Some st
  | NewFuture h :: r =>
      if Nat.eqb h (List.length st) then track r (st ++ [false]) else None
  | SetResult h _ :: r | SetException h _ :: r | CancelFuture h :: r =>
      match nth_error st h with
      | Some false => track r (list_update h true st)
      | _ => None
      end
  | _ :: r => track r st
  end.

(** How often the log completes the future [h]. *)
Fixpoint completions (h : handle) (l : list effect) : nat :=
  match l with
  | [] => 0
  | SetResult h' _ :: r | SetException h' _ :: r | CancelFuture h' :: r =>
      (if Nat.eqb h' h then 1 else 0) + completions h r
  | _ :: r => completions h r
  end.

(** The handles the log creates, in order. *)
Fixpoint creations (l : list effect) : list handle :=
  match l with
  | [] => []
  | NewFuture h :: r => h :: creations r
  | _ :: r => creations r
  end.

(** Effects that neither send nor touch a future. *)
Definition neutral (e : effect) : bool :=
  match e with
  | Print _ _ | Sleep _ | StoreSet _ _ | StoreSave _ _ | CodeRequested _ => true
  | _ => false
  end.

(** What every step of the engine keeps true. *)
Definition engine_inv (ver : json) (w : World) : Prop :=
  version_of w = ver
  /\ numbered ver 1 (sent (log w))
  /\ _seq (conn w) = Z.of_nat (List.length (sent (log w)))
  /\ track (log w) [] = Some (map done (futures w))
  /\ (forall h, _auth_future (auth w) = Some h -> (h < List.length (futures w))%nat)
  /\ delivered (transport w) = delivered_of (log w).

(** A computation keeps [P] true, however it ends. *)
Definition keeps {A : Type} (P : World -> Prop) (m : M A) : Prop :=
  forall w : World, P w -> P (snd (m w)).

(* ================================================================== *)
(** ** [session.py]: loading the session file *)




(* ================================================================== *)
(** ** [event_dispatcher.py]: [EventDispatcher]

    A handler is a callable, compared by identity: it is named by a
    number. *)

Module EventDispatcher.

Definition registry := list (pystr * list nat).

Definition handlers_of (r : registry) (event : pystr) : list nat :=
  match dict_get event r with Some l => l | None => [] end.

(** [add_event_handler(event_name, handler)]. *)
Definition add_event_handler (event : pystr) (h : nat) (r : registry) : registry :=
  let r1 := if dict_mem event r then r else dict_set event [] r in
  dict_set event (handlers_of r1 event ++ [h]) r1.

(** [l.remove(h)] on a list that holds [h]: the first occurrence goes. *)
Fixpoint remove_first (h : nat) (l : list nat) : list nat :=
  match l with
  | [] => []
  | x :: r => if Nat.eqb x h then r else x :: remove_first h r
  end.

(** [remove_event_handler(event_name, handler)]. *)
Definition remove_event_handler (event : pystr) (h : nat) (r : registry)
  : registry :=
  match dict_get event r with
  | Some l =>
      if existsb (Nat.eqb h) l then dict_set event (remove_first h l) r else r
  | None => r
  end.

End EventDispatcher.

(* ================================================================== *)
(** ** More observations *)


(** [self._session_data.get(key, default)] of a connection. *)
Definition setting (w : World) (key : string) (default : json) : json :=
  match dict_get (py key) (_session_data (conn w)) with
  | Some v => v
  | None => default
  end.

(** The payload of the device-init frame. *)
Definition device_init_payload (w : World) : json :=
  JDict [(py "userAgent",
          JDict [(py "deviceType", setting w "device_type" (JStr (py "ANDROID")));
                 (py "locale", setting w "locale" (JStr (py "ru")));
                 (py "deviceLocale", setting w "device_locale" (JStr (py "ru")));
                 (py "osVersion", setting w "os_version" (JStr (py "Windows")));
                 (py "deviceName", setting w "device_name" (JStr (py "Chrome")));
                 (py "headerUserAgent", setting w "user_agent" (JStr []));
                 (py "appVersion", setting w "app_version" (JStr (py "25.12.3")));
                 (py "screen", setting w "screen" (JStr (py "1080x1920 1.0x")));
                 (py "timezone", setting w "timezone" (JStr (py "Europe/Moscow")))]);
         (py "deviceId", setting w "device_id" (JStr []))].

(** The [replyTo] entry of a message, present for a non-empty id only. *)
Definition reply_entry (reply_to : option pystr) : dict :=
  match reply_to with
  | Some (c :: r) => [(py "replyTo", JStr (c :: r))]
  | _ => []
  end.

(* ================================================================== *)
(** ** Values the codec carries unchanged *)

(** A [str] of Unicode scalar values: code points below 0x110000 that
    are no surrogates. *)
Fixpoint wf_str (s : pystr) : bool :=
  match s with
  | [] => true
  | c :: r =>
      N.ltb c 1114112
      && negb (is_high_surrogate c || is_low_surrogate c)
      && wf_str r
  end.

(** No key occurs twice. *)
Fixpoint distinct_keys (keys : list pystr) : bool :=
  match keys with
  | [] => true
  | k :: r => negb (existsb (fun k' => pystr_eqb k' k) r) && distinct_keys r
  end.

(** Well-formed strings everywhere, no key twice in a dictionary. *)
Fixpoint wf_json (v : json) : bool :=
  match v with
  | JNull | JBool _ | JInt _ => true
  | JStr s => wf_str s
  | JList l =>
      (fix all (l : list json) : bool :=
         match l with
         | [] => true
         | x :: r => wf_json x && all r
         end) l
  | JDict d =>
      distinct_keys (map fst d)
      && (fix all (d : list (pystr * json)) : bool :=
            match d with
            | [] => true
            | (k, x) :: r => wf_str k && wf_json x && all r
            end) d
  end.

(** What [json.dumps] writes after the first item of a list or of a
    dictionary: the remaining items and the closing bracket. *)
Fixpoint items_text (r : list json) : pystr :=
  match r with
  | [] => [RBRACKET]
  | y :: r' => item_separator ++ json_dumps y ++ items_text r'
  end.

Fixpoint pairs_text (r : list (pystr * json)) : pystr :=
  match r with
  | [] => [RBRACE]
  | (k, y) :: r' =>
      item_separator ++ encode_basestring_ascii k ++ key_separator
        ++ json_dumps y ++ pairs_text r'
  end.

(** Nesting depth of lists and dictionaries. *)
Fixpoint json_depth (v : json) : nat :=
  match v with
  | JList l =>
      S ((fix deepest (l : list json) : nat :=
            match l with
            | [] => O
            | x :: r => Nat.max (json_depth x) (deepest r)
            end) l)
  | JDict d =>
      S ((fix deepest (d : list (pystr * json)) : nat :=
            match d with
            | [] => O
            | (_, x) :: r => Nat.max (json_depth x) (deepest r)
            end) d)
  | _ => O
  end.

(** Every integer has at most 4300 digits, the interpreter's default
    limit for conversions between [int] and [str]. *)
Fixpoint ints_convertible (v : json) : bool :=
  match v with
  | JInt z => Nat.leb (List.length (int_repr (Z.abs z))) 4300
  | JList l =>
      (fix all (l : list json) : bool :=
         match l with
         | [] => true
         | x :: r => ints_convertible x && all r
         end) l
  | JDict d =>
      (fix all (d : list (pystr * json)) : bool :=
         match d with
         | [] => true
         | (_, x) :: r => ints_convertible x && all r
         end) d
  | _ => true
  end.

(** The codec's recursion, one level per nested container, stays far
    below the interpreter's default recursion limit of 1000. *)
Definition MAX_DEPTH : nat := 100.

Definition within_limits (v : json) : bool :=
  ints_convertible v && Nat.leb (json_depth v) MAX_DEPTH.

(** What [scan_unicode] does after a high surrogate: a following
    backslash-u escape of a low surrogate is joined with it. *)
Definition lookahead (uni : N) (r : pystr) : option (codepoint * pystr) :=
  match r with
  | b :: u :: r' =>
      if N.eqb b BACKSLASH && N.eqb u LOWER_U then
        match decode_uXXXX r' with
        | None => None
        | Some (uni2, r'') =>
            if is_low_surrogate uni2 then
              Some ((65536 + N.lor (N.shiftl (uni - 55296) 10) (uni2 - 56320))%N,
                    r'')
            else Some (uni, r)
        end
      else Some (uni, r)
  | _ => Some (uni, r)
  end.

(** The text after a value inside a document: nothing, or a comma or a
    closing bracket. *)
Definition stop (rest : pystr) : Prop :=
  match rest with
  | [] => True
  | c :: _ => c = COMMA \/ c = RBRACKET \/ c = RBRACE
  end.

(** A character a value's text may start with. *)
Definition value_start (c : codepoint) : Prop :=
  is_ws c = false /\ N.eqb c RBRACKET = false /\ N.eqb c BOM = false.

(** [scan_once] reads the text of [v] back as [v], whatever follows. *)
Definition scans (v : json) : Prop :=
  forall (rest : pystr) (fuel : nat),
    stop rest ->
    (List.length (json_dumps v) <= fuel)%nat ->
    scan_once fuel (json_dumps v ++ rest) = Some (v, rest).

(* ================================================================== *)
(** ** Properties *)

(** Symbolic execution: a world is opened into its fields, the booleans
    of the environment are enumerated, the computation is unfolded. *)

Ltac unfold_engine :=
  unfold AuthManager.authenticate, AuthManager._on_auth_success,
    AuthManager._on_auth_code_requested, AuthManager._on_auth_code_checked,
    AuthManager._on_auth_error, AuthManager._on_auth_code_error,
    AuthManager.wait_for_reauth, AuthManager.navigation_events,
    AuthManager.pending_future, AuthManager.set_auth_future,
    AuthManager.set_code_callback, AuthManager.set_phone,
    AuthManager.call_code_callback,
    MaxConnection.send_auth_token, MaxConnection.send_auth_start,
    MaxConnection.send_auth_code, MaxConnection.send_events,
    MaxConnection._create_message, MaxConnection._send,
    MaxConnection.session_get, MaxConnection.get_seq,
    WebSocketConnection.send, WebSocketConnection.receive,
    SessionManager.get, SessionManager.set, SessionManager.save,
    new_future, set_result, set_exception, cancel, set_future,
    now_ms, sleep, print, emit, lift, catch, gets, modify, raise, ret, bind,
    online, session_token, version_of, envelope, start_auth_payload,
    token_auth_payload, navigation_payload, payload_field, future_of in *.

Ltac crunch :=
  cbn -[py json_dumps dict_get dict_set truthy eq_str Z.add nth
        list_update List.length AuthManager.is_token_invalid] in *.

Ltac open_world w :=
  destruct w as [[sdata sfile dok] [ws ic po pa dl] [cdata dbg seq hs]
                   [af cc ph] futs clk cr calls lg].

Ltac tidy_log := repeat rewrite <- app_assoc; cbn [app].

(** *** Dictionaries *)

Lemma pystr_eqb_refl : forall s : pystr, pystr_eqb s s = true.
Proof.
  induction s as [|c s IH]; simpl; [reflexivity|].
  rewrite N.eqb_refl. exact IH.
Qed.

Lemma pystr_eqb_eq : forall a b : pystr, pystr_eqb a b = true <-> a = b.
Proof.
  induction a as [|x a IH]; destruct b as [|y b]; simpl; split;
    try congruence; try reflexivity.
  - intros H. apply andb_true_iff in H. destruct H as [Hx Hab].
    apply N.eqb_eq in Hx. apply IH in Hab. congruence.
  - intros H. injection H as -> ->. rewrite N.eqb_refl. apply pystr_eqb_refl.
Qed.

Lemma dict_get_set_same :
  forall (V : Type) (k : pystr) (v : V) (d : list (pystr * V)),
    dict_get k (dict_set k v d) = Some v.
Proof.
  intros V k v d. induction d as [|[k' v'] d IH]; simpl.
  - rewrite pystr_eqb_refl. reflexivity.
  - destruct (pystr_eqb k' k) eqn:E; simpl; rewrite E; [reflexivity | exact IH].
Qed.

Lemma dict_get_set_other :
  forall (V : Type) (k k' : pystr) (v : V) (d : list (pystr * V)),
    pystr_eqb k' k = false ->
    dict_get k (dict_set k' v d) = dict_get k d.
Proof.
  intros V k k' v d Hk. induction d as [|[k0 v0] d IH]; simpl.
  - rewrite Hk. reflexivity.
  - destruct (pystr_eqb k0 k') eqn:E; simpl.
    + apply pystr_eqb_eq in E. subst k0. rewrite Hk. reflexivity.
    + destruct (pystr_eqb k0 k); [reflexivity | exact IH].
Qed.

(** *** Phone path: the phone is saved before the first frame leaves *)

(** C3.  A call of [authenticate] with a phone number and no cached token
    first writes the phone into the session store and saves the store,
    and only then hands the start-auth frame (opcode 17) to the transport:
    what the call appends to the log starts with the store write and the
    completed save, followed by nothing but console output before the
    frame; when the disk takes the write, the session file holds the phone
    from then on. *)
Theorem phone_persisted_before_start_auth :
  forall (w : World) (phone : pystr) (cb : option code_provider),
    phone <> [] ->
    truthy (session_token w) = false ->
    let w' := snd (AuthManager.authenticate (Some phone) cb w) in
    let data' := dict_set (py "phone") (JStr phone) (_data (session w)) in
    let frame :=
      envelope (version_of w) 0 (_seq (conn w) + 1) 17 (start_auth_payload phone) in
    exists (delivered : bool) (rest : list effect),
      log w' =
        log w
        ++ [Print Messages.PHONE_SENDING [JStr phone];
            StoreSet (py "phone") (JStr phone);
            StoreSave data' (disk_ok (session w))]
        ++ (if disk_ok (session w) then []
            else [Print Messages.ERROR_SAVING_SESSION []])
        ++ (if _debug (conn w) then [Print Messages.DEBUG_SENDING [frame]] else [])
        ++ TransportSend (json_dumps frame) delivered :: rest
      /\ dict_get (py "phone") data' = Some (JStr phone)
      /\ (disk_ok (session w) = true -> session_file (session w') = Some data').
Proof.
  intros w phone cb Hphone Htok.
  destruct phone as [|c r]; [congruence|].
  open_world w. unfold_engine. crunch. rewrite Htok. crunch.
  destruct dok, dbg, ws, ic, po; crunch; tidy_log;
    (eexists; eexists; split; [reflexivity|]; split;
     [apply dict_get_set_same | reflexivity || discriminate]).
Qed.

Lemma phone_persisted_before_start_auth_witness :
  exists (delivered : bool) (rest : list effect),
    log (snd (AuthManager.authenticate (Some (py "+79990001122")) None sample_world)) =
      log sample_world
      ++ [Print Messages.PHONE_SENDING [JStr (py "+79990001122")];
          StoreSet (py "phone") (JStr (py "+79990001122"));
          StoreSave (dict_set (py "phone") (JStr (py "+79990001122"))
                       (_data (session sample_world)))
            (disk_ok (session sample_world))]
      ++ (if disk_ok (session sample_world) then []
          else [Print Messages.ERROR_SAVING_SESSION []])
      ++ (if _debug (conn sample_world)
          then [Print Messages.DEBUG_SENDING
                  [envelope (version_of sample_world) 0
                     (_seq (conn sample_world) + 1) 17
                     (start_auth_payload (py "+79990001122"))]]
          else [])
      ++ TransportSend
           (json_dumps (envelope (version_of sample_world) 0
                          (_seq (conn sample_world) + 1) 17
                          (start_auth_payload (py "+79990001122"))))
           delivered :: rest
    /\ dict_get (py "phone")
         (dict_set (py "phone") (JStr (py "+79990001122"))
            (_data (session sample_world)))
       = Some (JStr (py "+79990001122"))
    /\ (disk_ok (session sample_world) = true ->
        session_file
          (session (snd (AuthManager.authenticate (Some (py "+79990001122"))
                           None sample_world)))
        = Some (dict_set (py "phone") (JStr (py "+79990001122"))
                  (_data (session sample_world)))).
Proof.
  apply (phone_persisted_before_start_auth sample_world (py "+79990001122") None).
  - discriminate.
  - reflexivity.
Defined.

(* ================================================================== *)
(** ** Further properties of the engine *)

(** Evaluation of a computation on an opened world, sharing what it
    computes. *)
Ltac evaluate :=
  lazy beta iota zeta delta
    -[py json_dumps dict_get dict_set truthy eq_str eq_int Z.add nth
      list_update List.length AuthManager.is_token_invalid app sent] in *.

Lemma sent_app : forall a b : list effect, sent (a ++ b) = sent a ++ sent b.
Proof.
  induction a as [|e a IH]; intros b; simpl; [reflexivity|].
  destruct e; simpl; rewrite ?IH; reflexivity.
Qed.

Lemma list_update_last :
  forall (A : Type) (l : list A) (x y : A),
    list_update (List.length l) y (l ++ [x]) = l ++ [y].
Proof.
  induction l as [|a l IH]; intros x y; simpl; [reflexivity|].
  rewrite IH. reflexivity.
Qed.

(** *** [authenticate] *)

(** X1.  Called with no cached token and no phone number (or an empty
    one), [authenticate] returns at once without waiting on anything: it
    sends nothing, creates no future and leaves the whole state as it
    was. *)
Theorem authenticate_without_credentials :
  forall (w : World) (phone : option pystr) (cb : option code_provider),
    truthy (session_token w) = false ->
    phone = None \/ phone = Some [] ->
    AuthManager.authenticate phone cb w = (Ok None, w).
Proof.
  intros w phone cb Htok Hphone. open_world w. evaluate.
  rewrite Htok. destruct Hphone as [-> | ->]; reflexivity.
Qed.

Lemma authenticate_without_credentials_witness :
  truthy (session_token sample_world) = false
  /\ AuthManager.authenticate None None sample_world = (Ok None, sample_world).
Proof.
  split; [reflexivity|].
  apply authenticate_without_credentials; [reflexivity | left; reflexivity].
Defined.



(** *** The handlers of [AuthManager] *)

(** X3.  Each of the five handlers of [AuthManager] starts by reading a
    key of the payload: on a payload that is not a dictionary it fails
    with [AttributeError] before it has changed or sent anything. *)
Theorem auth_handlers_reject_non_dict_payload :
  forall (w : World) (h : handler) (payload : json),
    is_dict payload = false ->
    (forall b, h <> external b) ->
    AuthManager.run_handler h payload w = (Raise AttributeError, w).
Proof.
  intros w h payload Hp Hh.
  destruct h; try (exfalso; eapply Hh; reflexivity);
    destruct payload; try discriminate Hp; reflexivity.
Qed.

Lemma auth_handlers_reject_non_dict_payload_witness :
  AuthManager.run_handler on_auth_error (JList [JInt 1]) sample_world
  = (Raise AttributeError, sample_world).
Proof.
  apply auth_handlers_reject_non_dict_payload; [reflexivity | discriminate].
Defined.










(** *** More on the handlers and on [authenticate] *)


(** X11.  Phone path of [authenticate] on a connection that is up: the
    call hands exactly two frames to the transport, the start-auth frame
    (opcode 17) with the phone and language [ru], then one telemetry frame
    (opcode 5) whose [events] list holds the two navigation events,
    numbered consecutively; it remembers the phone and the code provider,
    and leaves the caller waiting on a fresh pending future put in the
    slot. *)
Theorem phone_path_sends_start_and_navigation :
  forall (w : World) (phone : pystr) (cb : option code_provider),
    phone <> [] ->
    truthy (session_token w) = false ->
    online w ->
    let h := List.length (futures w) in
    exists (w' : World) (new : list effect),
      AuthManager.authenticate (Some phone) cb w = (Ok (Some h), w')
      /\ log w' = log w ++ new
      /\ sent new =
           [json_dumps (envelope (version_of w) 0 (_seq (conn w) + 1) 17
                          (start_auth_payload phone));
            json_dumps (envelope (version_of w) 0 (_seq (conn w) + 2) 5
                          (navigation_payload (clock w (clock_reads w))
                             (clock w (S (clock_reads w)))))]
      /\ auth w' = {| _auth_future := Some h; _code_callback := cb;
                      _phone := Some phone |}
      /\ futures w' = futures w ++ [Pending].
Proof.
  intros w phone cb Hphone Htok Hon.
  destruct phone as [|c r]; [congruence|].
  open_world w. evaluate. destruct Hon as (-> & -> & ->). rewrite Htok.
  evaluate.
  destruct dok, dbg; evaluate;
    tidy_log;
    (eexists; eexists; split; [reflexivity|]; evaluate; split; [reflexivity|];
     split; [cbn [sent app]; rewrite <- Z.add_assoc; reflexivity|];
     split; reflexivity).
Qed.

(** X12.  On an adapter that is not connected, a call of [authenticate]
    that has something to send (a cached token or a phone) fails with
    [ConnectionError("Not connected")]: no future is created, the slot is
    not changed and nothing reaches the socket, yet the sequence number of
    the frame that was built is consumed. *)
Theorem authenticate_disconnected_fails_early :
  forall (w : World) (phone : option pystr) (cb : option code_provider),
    _is_connected (transport w) = false ->
    truthy (session_token w) = true
    \/ (exists c r, phone = Some (c :: r)) ->
    exists w' : World,
      AuthManager.authenticate phone cb w
        = (Raise (ConnectionError "Not connected"), w')
      /\ futures w' = futures w
      /\ _auth_future (auth w') = _auth_future (auth w)
      /\ delivered (transport w') = delivered (transport w)
      /\ _seq (conn w') = (_seq (conn w) + 1)%Z.
Proof.
  intros w phone cb Hc Hcred. open_world w. evaluate. subst ic.
  destruct (truthy match dict_get (py "token") sdata with
                   | Some v => v | None => JNull end) eqn:Htok.
  - destruct dbg, ws; evaluate; eexists; repeat split; reflexivity.
  - destruct Hcred as [Hf | (c & r & ->)]; [discriminate Hf|].
    destruct dok, dbg, ws; evaluate; eexists; repeat split; reflexivity.
Qed.

Lemma phone_path_sends_start_and_navigation_witness :
  exists w' : World,
    AuthManager.authenticate (Some (py "+79990001122")) None sample_world
      = (Ok (Some 0%nat), w')
    /\ futures w' = [Pending]
    /\ List.length (sent (log w')) = 2%nat.
Proof.
  destruct (phone_path_sends_start_and_navigation sample_world
              (py "+79990001122") None)
    as (w' & new & Hrun & Hlog & Hsent & _ & Hfut).
  - discriminate.
  - reflexivity.
  - repeat split.
  - exists w'. split; [exact Hrun|]. split; [exact Hfut|].
    rewrite Hlog, sent_app, Hsent. reflexivity.
Defined.

Lemma authenticate_disconnected_fails_early_witness :
  exists w' : World,
    AuthManager.authenticate (Some (py "+79990001122")) None
      (fresh_world [] false true true (fun _ => 0%Z))
      = (Raise (ConnectionError "Not connected"), w')
    /\ futures w' = []
    /\ _seq (conn w') = 1%Z.
Proof.
  destruct (authenticate_disconnected_fails_early
              (fresh_world [] false true true (fun _ => 0%Z))
              (Some (py "+79990001122")) None)
    as (w' & Hrun & Hfut & _ & _ & Hseq).
  - reflexivity.
  - right. eexists. eexists. reflexivity.
  - exists w'. repeat split; assumption.
Defined.

(** *** Registration and routing *)

Lemma pystr_eqb_sym : forall a b : pystr, pystr_eqb a b = pystr_eqb b a.
Proof.
  induction a as [|x a IH]; destruct b as [|y b]; simpl; try reflexivity.
  rewrite N.eqb_sym, IH. reflexivity.
Qed.

(** X13.  [register_event_handler] appends: after registering [h] for an
    event, the handlers of that event are the former ones followed by
    [h] (a handler registered twice is listed twice), the handlers of every
    other event are unchanged, and nothing else of the state moves. *)
Theorem register_event_handler_appends :
  forall (w : World) (event : pystr) (h : handler),
    let w' := snd (MaxConnection.register_event_handler event h w) in
    registered w' event = registered w event ++ [h]
    /\ (forall other : pystr, other <> event -> registered w' other = registered w other)
    /\ log w' = log w /\ futures w' = futures w /\ _seq (conn w') = _seq (conn w).
Proof.
  intros w event h. open_world w. unfold registered.
  lazy beta iota zeta delta
    -[py dict_get dict_set dict_mem app].
  split; [|split; [|repeat split]].
  - unfold dict_mem. destruct (dict_get event hs) as [l|] eqn:E.
    + rewrite dict_get_set_same, E. reflexivity.
    + rewrite !dict_get_set_same. reflexivity.
  - intros other Hne.
    assert (Hb : pystr_eqb event other = false).
    { destruct (pystr_eqb event other) eqn:E; [|reflexivity].
      apply pystr_eqb_eq in E. congruence. }
    rewrite dict_get_set_other by exact Hb.
    unfold dict_mem. destruct (dict_get event hs); [reflexivity|].
    rewrite dict_get_set_other by exact Hb. reflexivity.
Qed.

(** X14.  [call_handlers] runs the handlers strictly in order and stops
    at the first one that raises: calling a list [a ++ b] is calling [a]
    and, only if no handler of [a] raised, calling [b] in the state [a]
    left; the exception of a handler is the exception of the call and the
    handlers after it are not run. *)
Theorem call_handlers_app :
  forall (H : Type) (run : H -> json -> M unit) (a b : list H)
         (payload : json) (w : World),
    call_handlers run (a ++ b) payload w =
    match call_handlers run a payload w with
    | (Ok _, w') => call_handlers run b payload w'
    | (Raise e, w') => (Raise e, w')
    end.
Proof.
  intros H run a b payload. induction a as [|h a IH]; intros w; simpl.
  - reflexivity.
  - unfold bind. destruct (run h payload w) as [[[]|e] w1]; [apply IH | reflexivity].
Qed.

(** X15.  The routing table of [_handle_message] is one to one on
    integer pairs: two [(cmd, opcode)] pairs routed to the same event name
    are the same pair; only [cmd] 0, 1 and 3 are routed, and only the
    opcodes 17, 18, 19, 32, 48, 64 and 128. *)
Theorem event_name_injective :
  forall (cmd opcode cmd' opcode' : Z) (name : pystr),
    MaxConnection.event_name (JInt cmd) (JInt opcode) = Some name ->
    MaxConnection.event_name (JInt cmd') (JInt opcode') = Some name ->
    cmd = cmd' /\ opcode = opcode'
    /\ In cmd [0; 1; 3]%Z
    /\ In opcode [17; 18; 19; 32; 48; 64; 128]%Z.
Proof.
  intros cmd opcode cmd' opcode' name.
  unfold MaxConnection.event_name, eq_int.
  repeat match goal with
         | |- context [Z.eqb ?a ?b] =>
             let E := fresh "E" in
             destruct (Z.eqb_spec a b) as [E|E]; [subst a|]
         end;
    intros H1 H2; try discriminate H1; try discriminate H2;
    injection H1 as <-; try discriminate H2;
    simpl; intuition (try reflexivity).
Qed.

Lemma event_name_injective_witness :
  (3 = 3 /\ 19 = 19 /\ In 3 [0; 1; 3] /\ In 19 [17; 18; 19; 32; 48; 64; 128])%Z.
Proof.
  apply (event_name_injective 3 19 3 19 (py "auth_error")); reflexivity.
Defined.

(** Routing looks at the integer a field compares equal to: the
    JSON booleans [true] and [false] in [cmd] or [opcode] are routed as 1
    and 0, and a field that is missing, [null], a string, a list or a
    dictionary is never routed. *)
Theorem event_name_reads_integer_values :
  forall cmd opcode : json,
    MaxConnection.event_name cmd opcode =
    match as_int cmd, as_int opcode with
    | Some c, Some o => MaxConnection.event_name (JInt c) (JInt o)
    | _, _ => None
    end.
Proof.
  intros cmd opcode.
  destruct cmd as [| [|] | c | | |]; destruct opcode as [| [|] | o | | |];
    try reflexivity;
    unfold MaxConnection.event_name, eq_int, as_int;
    repeat match goal with
           | |- context [Z.eqb ?a ?b] => destruct (Z.eqb a b)
           end; reflexivity.
Qed.

(** X16.  [_handle_message] either calls, in order of registration, the
    handlers registered for the event its [(cmd, opcode)] pair names, with
    the payload of the message (an empty dictionary when the message has
    none), or does nothing at all: a message that is not a non-empty
    dictionary, an unrouted pair or an event nobody registered for leaves
    the state untouched and is no error. *)
Theorem handle_message_dispatches_by_table :
  forall (run : handler -> json -> M unit) (message : json) (w : World),
    MaxConnection._handle_message run message w =
    match event_of message with
    | Some name =>
        call_handlers run (registered w name)
          (message_field message (py "payload") (JDict [])) w
    | None => (Ok tt, w)
    end.
Proof.
  intros run message w.
  destruct message as [| | | | |[|kv d]]; try reflexivity.
  unfold MaxConnection._handle_message, event_of, message_field, registered.
  destruct (MaxConnection.event_name _ _) as [name|]; [|reflexivity].
  unfold bind, gets.
  destruct (dict_get name (_message_handlers (conn w))); reflexivity.
Qed.

(** *** The listen loop *)

Ltac unfold_listen run loads :=
  unfold MaxConnection._listen; fold (MaxConnection._listen run loads);
  unfold MaxConnection.listen_turn, MaxConnection.decode_and_dispatch,
    MaxConnection.is_connected, WebSocketConnection.is_connected,
    WebSocketConnection.receive, debug_note, note, hung_up,
    catch, bind, gets, lift, ret, raise, print, emit, modify.

Section Listen.

Variable run : handler -> json -> M unit.
Variable loads : pystr -> result json.

(** X17.  A text that does not decode never ends the loop: [_listen]
    notes it on the console in debug mode (and not at all otherwise),
    changes nothing else, and goes on with what arrives next exactly as if
    the text had not arrived. *)
Theorem listen_skips_what_does_not_decode :
  forall (w : World) (data : pystr) (rest : list recv_outcome),
    adapter_up w ->
    data <> [] ->
    loads data = Raise JSONDecodeError ->
    MaxConnection._listen run loads (RecvData data :: rest) w =
    MaxConnection._listen run loads rest
      (debug_note w Messages.DEBUG_JSON_PARSE_FAILED [JStr data]).
Proof.
  intros w data rest [Hws Hic] Hdata Hloads.
  destruct data as [|c r]; [congruence|].
  destruct rest as [|o rest];
    open_world w; cbn in Hws, Hic; subst ws ic;
    unfold_listen run loads;
    cbn -[MaxConnection._listen]; rewrite Hloads; cbn -[MaxConnection._listen];
    destruct dbg; reflexivity.
Qed.


(** Turns that bring nothing: a receive that times out and an
    empty text leave the state as it is, without any attempt to decode,
    and the loop goes on; a receive that fails with another error is
    reported on the console and the loop goes on. *)
Theorem listen_idle_turns :
  forall (w : World) (rest : list recv_outcome),
    adapter_up w ->
    MaxConnection._listen run loads (RecvTimeout :: rest) w =
      MaxConnection._listen run loads rest w
    /\ MaxConnection._listen run loads (RecvData [] :: rest) w =
         MaxConnection._listen run loads rest w
    /\ forall text : string,
         MaxConnection._listen run loads (RecvError text :: rest) w =
           MaxConnection._listen run loads rest
             (note w Messages.ERROR_RECEIVING).
Proof.
  intros w rest [Hws Hic].
  open_world w; cbn in Hws, Hic; subst ws ic.
  repeat split; intros;
    destruct rest; unfold_listen run loads; cbn -[MaxConnection._listen];
    reflexivity.
Qed.

(** X19.  The loop ends with the connection: started on an adapter that
    is not connected it returns at once and changes nothing; when a
    receive finds the connection closed, the adapter is marked
    disconnected, the closure is reported on the console and the loop
    returns without reading what might still arrive. *)
Theorem listen_ends_when_connection_closes :
  forall (w : World) (arrivals rest : list recv_outcome),
    (_is_connected (transport w) = false ->
     MaxConnection._listen run loads arrivals w = (Ok MaxConnection.Break, w))
    /\ (adapter_up w ->
        MaxConnection._listen run loads (RecvClosed :: rest) w =
          (Ok MaxConnection.Break, note (hung_up w) Messages.WEBSOCKET_CLOSED)
        /\ _is_connected
             (transport (note (hung_up w) Messages.WEBSOCKET_CLOSED)) = false).
Proof.
  intros w arrivals rest. split.
  - intros Hic. open_world w; cbn in Hic; subst ic.
    destruct arrivals; reflexivity.
  - intros [Hws Hic]. open_world w; cbn in Hws, Hic; subst ws ic.
    split; reflexivity.
Qed.



End Listen.

Lemma listen_skips_what_does_not_decode_witness :
  MaxConnection._listen AuthManager.run_handler json_loads
    [RecvData (py "{not json"); RecvTimeout] sample_world
  = MaxConnection._listen AuthManager.run_handler json_loads [RecvTimeout]
      (debug_note sample_world Messages.DEBUG_JSON_PARSE_FAILED
         [JStr (py "{not json")]).
Proof.
  apply listen_skips_what_does_not_decode.
  - split; reflexivity.
  - discriminate.
  - reflexivity.
Defined.


(** *** What every run of the engine keeps true *)

Lemma delivered_of_app :
  forall a b : list effect, delivered_of (a ++ b) = delivered_of a ++ delivered_of b.
Proof.
  induction a as [|e a IH]; intros b; simpl; [reflexivity|].
  destruct e as [| | | | d [|] | | | | |]; simpl; rewrite ?IH; reflexivity.
Qed.

Lemma track_app :
  forall (a b : list effect) (st : list bool),
    track (a ++ b) st =
    match track a st with
    | Some st' => track b st'
    | None => None
    end.
Proof.
  induction a as [|e a IH]; intros b st; simpl; [reflexivity|].
  destruct e; simpl; try apply IH.
  - destruct (Nat.eqb h (List.length st)); [apply IH | reflexivity].
  - destruct (nth_error st h) as [[|]|]; try reflexivity. apply IH.
  - destruct (nth_error st h) as [[|]|]; try reflexivity. apply IH.
  - destruct (nth_error st h) as [[|]|]; try reflexivity. apply IH.
Qed.

Lemma numbered_app :
  forall (ver : json) (a b : list pystr) (n : Z),
    numbered ver n (a ++ b) <->
    numbered ver n a /\ numbered ver (n + Z.of_nat (List.length a)) b.
Proof.
  intros ver a. induction a as [|x a IH]; intros b n; simpl.
  - rewrite Z.add_0_r. tauto.
  - rewrite IH. replace (n + 1 + Z.of_nat (List.length a))%Z
      with (n + Z.pos (Pos.of_succ_nat (List.length a)))%Z by lia. tauto.
Qed.

Lemma sent_neutral :
  forall l : list effect, forallb neutral l = true -> sent l = [].
Proof.
  induction l as [|e l IH]; simpl; [reflexivity|].
  intros H. apply andb_true_iff in H. destruct H as [He Hl].
  destruct e; try discriminate He; apply IH; exact Hl.
Qed.

Lemma delivered_of_neutral :
  forall l : list effect, forallb neutral l = true -> delivered_of l = [].
Proof.
  induction l as [|e l IH]; simpl; [reflexivity|].
  intros H. apply andb_true_iff in H. destruct H as [He Hl].
  destruct e; try discriminate He; apply IH; exact Hl.
Qed.

Lemma track_neutral :
  forall (l : list effect) (st : list bool),
    forallb neutral l = true -> track l st = Some st.
Proof.
  induction l as [|e l IH]; intros st; simpl; [reflexivity|].
  intros H. apply andb_true_iff in H. destruct H as [He Hl].
  destruct e; try discriminate He; apply IH; exact Hl.
Qed.

(** A step that only talks to the console, the store, the clock or the
    registry keeps the invariant. *)
Lemma inv_neutral :
  forall (ver : json) (w w' : World) (l : list effect),
    engine_inv ver w ->
    _session_data (conn w') = _session_data (conn w) ->
    _seq (conn w') = _seq (conn w) ->
    futures w' = futures w ->
    _auth_future (auth w') = _auth_future (auth w) ->
    delivered (transport w') = delivered (transport w) ->
    log w' = log w ++ l ->
    forallb neutral l = true ->
    engine_inv ver w'.
Proof.
  intros ver w w' l (Hv & Hn & Hs & Ht & Hslot & Hd) Hsd Hseq Hf Ha Hdl Hlog Hl.
  unfold engine_inv, version_of in *.
  rewrite Hsd, Hseq, Hf, Ha, Hdl, Hlog, sent_app, delivered_of_app, track_app.
  rewrite (sent_neutral l Hl), (delivered_of_neutral l Hl), Ht,
    (track_neutral l _ Hl), !app_nil_r.
  repeat split; assumption.
Qed.

Lemma inv_same :
  forall (ver : json) (w w' : World),
    engine_inv ver w ->
    _session_data (conn w') = _session_data (conn w) ->
    _seq (conn w') = _seq (conn w) ->
    futures w' = futures w ->
    _auth_future (auth w') = _auth_future (auth w) ->
    delivered (transport w') = delivered (transport w) ->
    log w' = log w ->
    engine_inv ver w'.
Proof.
  intros ver w w' H H1 H2 H3 H4 H5 H6.
  apply (inv_neutral ver w w' []); try assumption; [|reflexivity].
  rewrite app_nil_r. exact H6.
Qed.

Lemma inv_send :
  forall (ver : json) (w w' : World) (pre : list effect) (data : pystr) (ok : bool),
    engine_inv ver w ->
    _session_data (conn w') = _session_data (conn w) ->
    _seq (conn w') = (_seq (conn w) + 1)%Z ->
    futures w' = futures w ->
    _auth_future (auth w') = _auth_future (auth w) ->
    forallb neutral pre = true ->
    log w' = log w ++ pre ++ [TransportSend data ok] ->
    is_frame ver (_seq (conn w) + 1) data ->
    delivered (transport w') = delivered (transport w) ++ (if ok then [data] else []) ->
    engine_inv ver w'.
Proof.
  intros ver w w' pre data ok (Hv & Hn & Hs & Ht & Hslot & Hd)
    Hsd Hseq Hf Ha Hpre Hlog Hframe Hdl.
  unfold engine_inv, version_of in *.
  rewrite Hsd, Hseq, Hf, Ha, Hdl, Hlog, !sent_app, !delivered_of_app.
  rewrite track_app, Ht. cbv beta iota.
  rewrite track_app, (track_neutral pre _ Hpre). cbv beta iota.
  rewrite (sent_neutral pre Hpre), (delivered_of_neutral pre Hpre).
  cbn [sent app delivered_of track].
  repeat split; try assumption.
  - apply numbered_app. split; [assumption|]. cbn [numbered].
    rewrite <- Hs. split; [|exact I].
    rewrite Z.add_comm. exact Hframe.
  - rewrite Hs, length_app. cbn [List.length]. lia.
  - rewrite Hd. destruct ok; reflexivity.
Qed.

Lemma list_update_length :
  forall (A : Type) (l : list A) (n : nat) (x : A),
    List.length (list_update n x l) = List.length l.
Proof.
  induction l as [|a l IH]; intros [|n] x; simpl; try reflexivity.
  rewrite IH. reflexivity.
Qed.

Lemma map_list_update :
  forall (A B : Type) (f : A -> B) (l : list A) (n : nat) (x : A),
    map f (list_update n x l) = list_update n (f x) (map f l).
Proof.
  induction l as [|a l IH]; intros [|n] x; simpl; try reflexivity.
  rewrite IH. reflexivity.
Qed.

Lemma nth_error_map_done :
  forall (l : list future_state) (h : nat),
    (h < List.length l)%nat ->
    nth_error (map done l) h = Some (done (nth h l Pending)).
Proof.
  induction l as [|a l IH]; intros [|h] Hh; simpl in *; try lia; try reflexivity.
  apply IH. lia.
Qed.

(** Completing the pending future of the slot keeps the invariant. *)
Lemma inv_settle :
  forall (ver : json) (w w' : World) (pre : list effect) (h : handle)
         (f : future_state) (e : effect),
    engine_inv ver w ->
    _auth_future (auth w) = Some h ->
    done (future_of w h) = false ->
    done f = true ->
    track [e] (map done (futures w)) =
      match nth_error (map done (futures w)) h with
      | Some false => Some (list_update h true (map done (futures w)))
      | _ => None
      end ->
    sent [e] = [] -> delivered_of [e] = [] ->
    _session_data (conn w') = _session_data (conn w) ->
    _seq (conn w') = _seq (conn w) ->
    futures w' = list_update h f (futures w) ->
    _auth_future (auth w') = _auth_future (auth w) ->
    delivered (transport w') = delivered (transport w) ->
    forallb neutral pre = true ->
    log w' = log w ++ pre ++ [e] ->
    engine_inv ver w'.
Proof.
  intros ver w w' pre h f e (Hv & Hn & Hs & Ht & Hslot & Hd)
    Hh Hpend Hf He Hse Hde Hsd Hseq Hfut Ha Hdl Hpre Hlog.
  unfold engine_inv, version_of in *.
  rewrite Hsd, Hseq, Hfut, Ha, Hdl, Hlog, !sent_app, !delivered_of_app.
  rewrite track_app, Ht. cbv beta iota.
  rewrite track_app, (track_neutral pre _ Hpre). cbv beta iota.
  rewrite (sent_neutral pre Hpre), (delivered_of_neutral pre Hpre),
    Hse, Hde, He, !app_nil_r.
  specialize (Hslot h Hh) as Hlt.
  rewrite (nth_error_map_done _ _ Hlt). unfold future_of in Hpend. rewrite Hpend.
  rewrite map_list_update, Hf, list_update_length.
  repeat split; assumption.
Qed.

Section Keeps.

Variable ver : json.
Let I := engine_inv ver.

Lemma keeps_ret : forall (A : Type) (a : A), keeps I (ret a).
Proof. intros A a w H. exact H. Qed.

Lemma keeps_raise : forall (A : Type) (e : exn), keeps I (@raise A e).
Proof. intros A e w H. exact H. Qed.

Lemma keeps_lift : forall (A : Type) (r : result A), keeps I (lift r).
Proof. intros A r w H. exact H. Qed.

Lemma keeps_gets : forall (A : Type) (f : World -> A), keeps I (gets f).
Proof. intros A f w H. exact H. Qed.

Lemma keeps_bind :
  forall (A B : Type) (m : M A) (k : A -> M B),
    keeps I m -> (forall a, keeps I (k a)) -> keeps I (bind m k).
Proof.
  intros A B m k Hm Hk w H. unfold bind.
  specialize (Hm w H). destruct (m w) as [[a|e] w1]; simpl in *.
  - apply Hk. exact Hm.
  - exact Hm.
Qed.

Lemma keeps_catch :
  forall (A : Type) (m : M A) (h : exn -> M A),
    keeps I m -> (forall e, keeps I (h e)) -> keeps I (catch m h).
Proof.
  intros A m h Hm Hh w H. unfold catch.
  specialize (Hm w H). destruct (m w) as [[a|e] w1]; simpl in *.
  - exact Hm.
  - apply Hh. exact Hm.
Qed.

(** Steps that are neutral. *)
Ltac neutral_step l :=
  let w := fresh "w" in
  let H := fresh "H" in
  intros w H;
  apply (inv_neutral ver w _ l H); reflexivity.

Lemma keeps_print : forall m args, keeps I (print m args).
Proof. intros m args. neutral_step [Print m args]. Qed.

Lemma keeps_sleep : forall ms, keeps I (sleep ms).
Proof. intros ms. neutral_step [Sleep ms]. Qed.

Lemma keeps_now_ms : keeps I now_ms.
Proof. intros w H. apply (inv_same ver w _ H); reflexivity. Qed.

Lemma keeps_session_set : forall k v, keeps I (SessionManager.set k v).
Proof. intros k v. neutral_step [StoreSet k v]. Qed.

Lemma keeps_session_save : keeps I SessionManager.save.
Proof.
  intros w H. unfold SessionManager.save, bind, gets.
  destruct (disk_ok (session w)) eqn:E.
  - apply (inv_neutral ver w _ [StoreSave (_data (session w)) true] H);
      reflexivity.
  - apply (inv_neutral ver w _
             [StoreSave (_data (session w)) false;
              Print Messages.ERROR_SAVING_SESSION []] H);
      try reflexivity.
    cbn. rewrite <- app_assoc. reflexivity.
Qed.

Lemma keeps_ws_connect : keeps I WebSocketConnection.connect.
Proof.
  intros w H. unfold WebSocketConnection.connect, bind, gets.
  destruct (peer_accepts (transport w)).
  - apply (inv_same ver w _ H); reflexivity.
  - exact H.
Qed.

Lemma keeps_ws_receive : forall o, keeps I (WebSocketConnection.receive o).
Proof.
  intros o w H. unfold WebSocketConnection.receive, bind, gets.
  destruct (negb _ || negb _); [exact H|].
  destruct o; exact H.
Qed.

Lemma keeps_ws_close : keeps I WebSocketConnection.close.
Proof. intros w H. apply (inv_same ver w _ H); reflexivity. Qed.

Lemma keeps_register :
  forall event h, keeps I (MaxConnection.register_event_handler event h).
Proof. intros event h w H. apply (inv_same ver w _ H); reflexivity. Qed.

Lemma keeps_set_code_callback :
  forall cb, keeps I (AuthManager.set_code_callback cb).
Proof. intros cb w H. apply (inv_same ver w _ H); reflexivity. Qed.

Lemma keeps_set_phone : forall p, keeps I (AuthManager.set_phone p).
Proof. intros p w H. apply (inv_same ver w _ H); reflexivity. Qed.

Lemma keeps_call_code_callback :
  forall f, keeps I (AuthManager.call_code_callback f).
Proof.
  intros f w H. unfold AuthManager.call_code_callback, bind, gets, modify, emit, lift.
  cbn. destruct (f (code_calls w));
    apply (inv_neutral ver w _ [CodeRequested (code_calls w)] H); reflexivity.
Qed.

Lemma bind_assoc :
  forall (A B C : Type) (m : M A) (k : A -> M B) (k' : B -> M C) (w : World),
    bind (bind m k) k' w = bind m (fun a => bind (k a) k') w.
Proof.
  intros A B C m k k' w. unfold bind.
  destruct (m w) as [[a|e] w1]; reflexivity.
Qed.

Lemma keeps_ext :
  forall (A : Type) (m m' : M A),
    (forall w, m w = m' w) -> keeps I m -> keeps I m'.
Proof. intros A m m' E Hm w H. rewrite <- E. apply Hm. exact H. Qed.

(** Building a frame and handing it to the transport, as every sending
    method does. *)
Lemma keeps_frame_block :
  forall (opcode : Z) (payload : json),
    In opcode opcodes ->
    keeps I (bind (MaxConnection._create_message opcode payload 0)
               (fun message => MaxConnection._send message)).
Proof.
  intros opcode payload Hop w H.
  assert (Hframe : is_frame ver (_seq (conn w) + 1)
            (json_dumps (envelope (version_of w) 0 (_seq (conn w) + 1) opcode payload))).
  { exists opcode, payload. split; [exact Hop|]. destruct H as (<- & _). reflexivity. }
  set (frame := envelope (version_of w) 0 (_seq (conn w) + 1) opcode payload) in *.
  destruct (_debug (conn w)) eqn:Edbg;
    destruct (_websocket (transport w)) eqn:Ews;
    destruct (_is_connected (transport w)) eqn:Eic;
    destruct (peer_open (transport w)) eqn:Epo;
    unfold MaxConnection._create_message, MaxConnection._send,
      MaxConnection.session_get, MaxConnection.get_seq,
      WebSocketConnection.send, print, emit, bind, gets, modify, ret, raise;
    cbn -[json_dumps py Z.add]; rewrite ?Edbg; cbn -[json_dumps py Z.add];
    rewrite ?Ews, ?Eic, ?Epo; cbn -[json_dumps py Z.add];
    first
      [ apply (inv_send ver w _ [Print Messages.DEBUG_SENDING [frame]]
                 (json_dumps frame) true H);
        solve [reflexivity | exact Hframe | cbn; rewrite <- app_assoc; reflexivity]
      | apply (inv_send ver w _ [Print Messages.DEBUG_SENDING [frame]]
                 (json_dumps frame) false H);
        solve [reflexivity | exact Hframe | cbn; rewrite <- app_assoc; reflexivity
               | cbn; rewrite app_nil_r; reflexivity]
      | apply (inv_send ver w _ [] (json_dumps frame) true H);
        solve [reflexivity | exact Hframe]
      | apply (inv_send ver w _ [] (json_dumps frame) false H);
        solve [reflexivity | exact Hframe | cbn; rewrite app_nil_r; reflexivity] ].
Qed.

Lemma keeps_frame :
  forall (A : Type) (opcode : Z) (payload : json) (k : unit -> M A),
    In opcode opcodes ->
    (forall a, keeps I (k a)) ->
    keeps I (bind (MaxConnection._create_message opcode payload 0)
               (fun message => bind (MaxConnection._send message) k)).
Proof.
  intros A opcode payload k Hop Hk.
  apply (keeps_ext _ (bind (bind (MaxConnection._create_message opcode payload 0)
                              (fun message => MaxConnection._send message)) k)).
  - intros w. apply bind_assoc.
  - apply keeps_bind; [apply keeps_frame_block; exact Hop | exact Hk].
Qed.

(** A fresh future put in the slot. *)
Lemma inv_new_future :
  forall (w w' : World) (post : list effect) (f : future_state),
    I w ->
    _session_data (conn w') = _session_data (conn w) ->
    _seq (conn w') = _seq (conn w) ->
    futures w' = futures w ++ [f] ->
    (forall h, _auth_future (auth w') = Some h -> (h <= List.length (futures w))%nat) ->
    delivered (transport w') = delivered (transport w) ->
    log w' = log w ++ NewFuture (List.length (futures w)) :: post ->
    sent post = [] -> delivered_of post = [] ->
    track post (map done (futures w) ++ [false]) = Some (map done (futures w ++ [f])) ->
    I w'.
Proof.
  intros w w' post f (Hv & Hn & Hs & Ht & Hslot & Hd)
    Hsd Hseq Hfut Ha Hdl Hlog Hsp Hdp Htp.
  unfold I, engine_inv, version_of in *.
  rewrite Hsd, Hseq, Hfut, Hdl, Hlog, !sent_app, !delivered_of_app.
  rewrite track_app, Ht. cbv beta iota.
  cbn [track sent delivered_of]. rewrite length_map, Nat.eqb_refl, Htp, Hsp, Hdp, !app_nil_r.
  repeat split; try assumption.
  intros h Hh. specialize (Ha h Hh). rewrite length_app. cbn. lia.
Qed.

Lemma keeps_new_future_awaited :
  keeps I (bind new_future
             (fun h => bind (AuthManager.set_auth_future h)
                         (fun _ => ret (Some h)))).
Proof.
  intros w H.
  apply (inv_new_future w _ [] Pending H); try reflexivity.
  - cbn. intros h Hh. injection Hh as <-. lia.
  - cbn. rewrite map_app. reflexivity.
Qed.

Lemma keeps_new_future_reauth :
  keeps I (bind new_future
             (fun h => bind (AuthManager.set_auth_future h)
                         (fun _ => AuthManager.wait_for_reauth h))).
Proof.
  intros w H.
  unfold new_future, AuthManager.set_auth_future, AuthManager.wait_for_reauth,
    cancel, set_future, print, emit, bind, gets, modify, ret, future_of.
  cbn -[nth list_update]. rewrite nth_middle. cbn -[nth list_update].
  rewrite list_update_last.
  apply (inv_new_future w _
           [CancelFuture (List.length (futures w));
            Print Messages.AUTH_TIMEOUT []] Cancelled H); try reflexivity.
  - cbn. intros h Hh. injection Hh as <-. lia.
  - cbn. rewrite <- !app_assoc. reflexivity.
  - cbn [track]. rewrite nth_error_app2 by (rewrite length_map; lia).
    rewrite length_map, Nat.sub_diag. cbn [nth_error].
    rewrite <- (length_map done (futures w)) at 1.
    rewrite list_update_last, map_app. reflexivity.
Qed.

Lemma keeps_settle :
  forall (f : future_state) (mk : handle -> effect),
    done f = true ->
    (forall h st, track [mk h] st =
                  match nth_error st h with
                  | Some false => Some (list_update h true st)
                  | _ => None
                  end) ->
    (forall h, sent [mk h] = []) ->
    (forall h, delivered_of [mk h] = []) ->
    keeps I (bind AuthManager.pending_future
               (fun p => match p with
                         | Some h => set_future h f (mk h)
                         | None => ret tt
                         end)).
Proof.
  intros f mk Hf Htr Hse Hde w H.
  unfold AuthManager.pending_future, bind, gets.
  destruct (_auth_future (auth w)) as [h|] eqn:Eslot; [|exact H].
  destruct (done (future_of w h)) eqn:Edone; [exact H|].
  apply (inv_settle ver w _ [] h f (mk h) H Eslot Edone Hf); try reflexivity.
  - apply Htr.
  - apply Hse.
  - apply Hde.
Qed.

Lemma keeps_settle_result :
  forall v : json,
    keeps I (bind AuthManager.pending_future
               (fun p => match p with
                         | Some h => set_result h v
                         | None => ret tt
                         end)).
Proof.
  intros v. apply (keeps_settle (Finished v) (fun h => SetResult h v));
    reflexivity.
Qed.

Lemma keeps_settle_exception :
  forall e : exn,
    keeps I (bind AuthManager.pending_future
               (fun p => match p with
                         | Some h => set_exception h e
                         | None => ret tt
                         end)).
Proof.
  intros e. apply (keeps_settle (Failed e) (fun h => SetException h e));
    reflexivity.
Qed.

Ltac in_opcodes :=
  unfold opcodes; cbn [In];
  repeat first [left; reflexivity | right].

Ltac keeps_step :=
  lazymatch goal with
  | |- keeps _ (ret _) => apply keeps_ret
  | |- keeps _ (raise _) => apply keeps_raise
  | |- keeps _ (lift _) => apply keeps_lift
  | |- keeps _ (gets _) => apply keeps_gets
  | |- keeps _ (SessionManager.get _ _) => apply keeps_gets
  | |- keeps _ (MaxConnection.session_get _ _) => apply keeps_gets
  | |- keeps _ MaxConnection.get_seq => apply keeps_gets
  | |- keeps _ (print _ _) => apply keeps_print
  | |- keeps _ (sleep _) => apply keeps_sleep
  | |- keeps _ now_ms => apply keeps_now_ms
  | |- keeps _ (SessionManager.set _ _) => apply keeps_session_set
  | |- keeps _ SessionManager.save => apply keeps_session_save
  | |- keeps _ WebSocketConnection.connect => apply keeps_ws_connect
  | |- keeps _ (WebSocketConnection.receive _) => apply keeps_ws_receive
  | |- keeps _ (AuthManager.set_code_callback _) => apply keeps_set_code_callback
  | |- keeps _ (AuthManager.set_phone _) => apply keeps_set_phone
  | |- keeps _ (AuthManager.call_code_callback _) =>
      apply keeps_call_code_callback
  | |- keeps _ (bind new_future ?k) =>
      lazymatch k with
      | context [AuthManager.wait_for_reauth] => apply keeps_new_future_reauth
      | _ => apply keeps_new_future_awaited
      end
  | |- keeps _ (bind AuthManager.pending_future ?k) =>
      lazymatch k with
      | context [set_result] => apply keeps_settle_result
      | _ => apply keeps_settle_exception
      end
  | |- keeps _ (bind (MaxConnection._create_message _ _ _) _) =>
      apply keeps_frame; [in_opcodes | intros]
  | |- keeps _ (bind _ _) => apply keeps_bind; [|intros]
  | |- keeps _ (catch _ _) => apply keeps_catch; [|intros]
  | |- keeps _ (if ?b then _ else _) => destruct b
  | |- keeps _ (match ?x with _ => _ end) => destruct x
  | |- keeps _ (let _ := _ in _) => cbv zeta
  end.

Lemma keeps_run_op : forall op : conn_op, keeps I (MaxConnection.run_op op).
Proof.
  intros op. destruct op; cbn [MaxConnection.run_op];
    unfold MaxConnection.send_message, MaxConnection.send_sticker,
      MaxConnection.send_reaction, MaxConnection.edit_message,
      MaxConnection.delete_message, MaxConnection.send_events,
      MaxConnection.send_auth_start, MaxConnection.send_auth_code,
      MaxConnection.send_auth_token, MaxConnection.send_get_chats,
      MaxConnection.send_get_contacts;
    repeat keeps_step.
Qed.

Lemma keeps_connect : keeps I MaxConnection.connect.
Proof.
  unfold MaxConnection.connect, MaxConnection._initialize,
    MaxConnection._get_user_agent_dict.
  repeat keeps_step.
Qed.

Lemma keeps_authenticate :
  forall phone cb, keeps I (AuthManager.authenticate phone cb).
Proof.
  intros phone cb.
  unfold AuthManager.authenticate, AuthManager.navigation_events,
    MaxConnection.send_auth_token, MaxConnection.send_auth_start,
    MaxConnection.send_events.
  repeat keeps_step.
Qed.

Lemma keeps_run_ops : forall ops, keeps I (AuthManager.run_ops ops).
Proof.
  induction ops as [|op ops IH]; cbn [AuthManager.run_ops].
  - apply keeps_ret.
  - apply keeps_bind; [apply keeps_run_op | intros; exact IH].
Qed.

Lemma keeps_run_handler :
  forall h payload, keeps I (AuthManager.run_handler h payload).
Proof.
  intros h payload. destruct h as [| | | | |behaviour];
    cbn [AuthManager.run_handler].
  1-5: unfold AuthManager._on_auth_success, AuthManager._on_auth_code_requested,
         AuthManager._on_auth_code_checked, AuthManager._on_auth_error,
         AuthManager._on_auth_code_error, AuthManager.navigation_events,
         MaxConnection.send_auth_token, MaxConnection.send_auth_start,
         MaxConnection.send_events, MaxConnection.send_auth_code;
       repeat keeps_step.
  apply keeps_bind; [apply keeps_run_ops | intros].
  repeat keeps_step.
Qed.

Lemma keeps_call_handlers :
  forall hs payload,
    keeps I (call_handlers AuthManager.run_handler hs payload).
Proof.
  induction hs as [|h hs IH]; intros payload; cbn [call_handlers].
  - apply keeps_ret.
  - apply keeps_bind; [apply keeps_run_handler | intros; apply IH].
Qed.

Lemma keeps_listen_turn :
  forall loads o,
    keeps I (MaxConnection.listen_turn AuthManager.run_handler loads o).
Proof.
  intros loads o.
  unfold MaxConnection.listen_turn, MaxConnection.decode_and_dispatch,
    MaxConnection._handle_message.
  repeat first [apply keeps_call_handlers | keeps_step].
Qed.

Lemma keeps_step_action :
  forall loads a w, I w -> I (step loads a w).
Proof.
  intros loads a w H. destruct a; cbn [step].
  - apply keeps_connect. exact H.
  - apply keeps_authenticate. exact H.
  - destruct (_is_connected (transport w)); [|exact H].
    apply keeps_listen_turn. exact H.
  - apply keeps_run_op. exact H.
  - apply keeps_register. exact H.
  - apply keeps_ws_close. exact H.
  - exact H.
Qed.

End Keeps.

Lemma fresh_world_inv :
  forall data debug accepts disk ticks,
    engine_inv (version_of (fresh_world data debug accepts disk ticks))
      (fresh_world data debug accepts disk ticks).
Proof.
  intros. repeat split. intros h Hh. discriminate Hh.
Qed.

Lemma run_inv :
  forall loads ver actions w,
    engine_inv ver w -> engine_inv ver (run loads actions w).
Proof.
  intros loads ver actions. unfold run.
  induction actions as [|a actions IH]; intros w H; cbn [fold_left].
  - exact H.
  - apply IH. apply keeps_step_action. exact H.
Qed.



Lemma nth_list_update_same :
  forall (A : Type) (l : list A) (n : nat) (x d : A),
    (n < List.length l)%nat -> nth n (list_update n x l) d = x.
Proof.
  induction l as [|a l IH]; intros [|n] x d Hn; simpl in *; try lia; try reflexivity.
  apply IH. lia.
Qed.

Lemma nth_list_update_other :
  forall (A : Type) (l : list A) (n m : nat) (x d : A),
    n <> m -> nth m (list_update n x l) d = nth m l d.
Proof.
  induction l as [|a l IH]; intros [|n] [|m] x d Hnm; simpl; try reflexivity;
    try congruence.
  apply IH. congruence.
Qed.

Lemma track_sound :
  forall (l : list effect) (st st' : list bool),
    track l st = Some st' ->
    (List.length st <= List.length st')%nat
    /\ creations l = seq (List.length st) (List.length st' - List.length st)
    /\ forall h : handle,
         (completions h l + (if nth h st false then 1 else 0)
          = if nth h st' false then 1 else 0)%nat.
Proof.
  induction l as [|e l IH]; intros st st' H; cbn [track] in H.
  - injection H as <-. rewrite Nat.sub_diag. repeat split; reflexivity.
  - destruct e; cbn [creations completions]; try (apply IH; exact H).
    + destruct (Nat.eqb_spec h (List.length st)) as [->|]; [|discriminate H].
      destruct (IH _ _ H) as (Hlen & Hcr & Hco).
      rewrite length_app in Hlen, Hcr. cbn [List.length] in Hlen, Hcr.
      split; [lia|]. split.
      * rewrite Hcr.
        replace (List.length st' - List.length st)%nat
          with (S (List.length st' - (List.length st + 1)))%nat by lia.
        cbn [seq]. rewrite Nat.add_1_r. reflexivity.
      * intros h. rewrite <- Hco.
        destruct (Nat.lt_ge_cases h (List.length st)) as [Hlt|Hge].
        -- rewrite app_nth1 by exact Hlt. reflexivity.
        -- rewrite (nth_overflow st) by exact Hge.
           destruct (Nat.eq_dec h (List.length st)) as [->|Hne].
           ++ rewrite nth_middle. reflexivity.
           ++ rewrite nth_overflow; [reflexivity|].
              rewrite length_app. cbn. lia.
    + destruct (nth_error st h) as [[|]|] eqn:E; try discriminate H.
      destruct (IH _ _ H) as (Hlen & Hcr & Hco).
      rewrite list_update_length in Hlen, Hcr.
      repeat split; try assumption.
      intros h0. rewrite <- Hco.
      assert (Hlt : (h < List.length st)%nat)
        by (apply nth_error_Some; congruence).
      destruct (Nat.eqb_spec h h0) as [->|Hne].
      * rewrite nth_list_update_same by exact Hlt.
        rewrite (nth_error_nth _ _ _ E). lia.
      * rewrite nth_list_update_other by exact Hne. lia.
    + destruct (nth_error st h) as [[|]|] eqn:E; try discriminate H.
      destruct (IH _ _ H) as (Hlen & Hcr & Hco).
      rewrite list_update_length in Hlen, Hcr.
      repeat split; try assumption.
      intros h0. rewrite <- Hco.
      assert (Hlt : (h < List.length st)%nat)
        by (apply nth_error_Some; congruence).
      destruct (Nat.eqb_spec h h0) as [->|Hne].
      * rewrite nth_list_update_same by exact Hlt.
        rewrite (nth_error_nth _ _ _ E). lia.
      * rewrite nth_list_update_other by exact Hne. lia.
    + destruct (nth_error st h) as [[|]|] eqn:E; try discriminate H.
      destruct (IH _ _ H) as (Hlen & Hcr & Hco).
      rewrite list_update_length in Hlen, Hcr.
      repeat split; try assumption.
      intros h0. rewrite <- Hco.
      assert (Hlt : (h < List.length st)%nat)
        by (apply nth_error_Some; congruence).
      destruct (Nat.eqb_spec h h0) as [->|Hne].
      * rewrite nth_list_update_same by exact Hlt.
        rewrite (nth_error_nth _ _ _ E). lia.
      * rewrite nth_list_update_other by exact Hne. lia.
Qed.

(** X22.  Whatever the tasks of the client do, the futures of the
    authentication manager are created with fresh handles in order, each
    future is completed (resolved, failed or cancelled) at most once, it is
    done exactly when it has been completed, and the slot always names a
    future that exists. *)
Theorem futures_complete_at_most_once :
  forall (loads : pystr -> result json) (actions : list action)
         (data : dict) (debug accepts disk : bool) (ticks : nat -> Z),
    let w := run loads actions (fresh_world data debug accepts disk ticks) in
    creations (log w) = seq 0 (List.length (futures w))
    /\ (forall h : handle,
          completions h (log w) = if done (future_of w h) then 1%nat else 0%nat)
    /\ (forall h : handle,
          _auth_future (auth w) = Some h -> (h < List.length (futures w))%nat).
Proof.
  intros loads actions data debug accepts disk ticks w.
  destruct (run_inv loads _ actions _
              (fresh_world_inv data debug accepts disk ticks))
    as (_ & _ & _ & Ht & Hslot & _).
  fold w in Ht, Hslot.
  destruct (track_sound _ _ _ Ht) as (_ & Hcr & Hco).
  cbn [List.length] in Hcr. rewrite Nat.sub_0_r, length_map in Hcr.
  split; [exact Hcr|]. split; [|exact Hslot].
  intros h. specialize (Hco h). unfold future_of.
  change false with (done Pending) in Hco at 2.
  rewrite map_nth in Hco.
  destruct h; cbn in Hco; lia.
Qed.



(** *** The sending methods and [connect] *)


(** [send_message] builds a frame with opcode 64 whose payload holds
    the chat, the text, the clock reading as [cid], empty [elements] and
    [attaches], [replyTo] only for a non-empty id, and [notify] true. *)
Theorem send_message_frame :
  forall (w : World) (chat_id : Z) (text : pystr) (reply_to : option pystr),
    let payload :=
      JDict [(py "chatId", JInt chat_id);
             (py "message",
              JDict ([(py "text", JStr text);
                      (py "cid", JInt (clock w (clock_reads w)));
                      (py "elements", JList []); (py "attaches", JList [])]
                     ++ reply_entry reply_to));
             (py "notify", JBool true)] in
    exists new : list effect,
      log (snd (MaxConnection.send_message chat_id text reply_to w)) = log w ++ new
      /\ sent new =
           [json_dumps (envelope (version_of w) 0 (_seq (conn w) + 1) 64 payload)].
Proof.
  intros w chat_id text reply_to. open_world w. evaluate.
  destruct reply_to as [[|c r]|]; destruct dbg, ws, ic, po; evaluate; tidy_log;
    (eexists; split; reflexivity).
Qed.

(** X25.  [connect]: when the peer refuses, the call fails with
    [ConnectionError("Failed to connect")] and nothing changes, no frame is
    built.  When the peer accepts, the adapter is connected and exactly one
    frame is sent, the device-init frame (opcode 6) with the nine user
    agent fields (defaults for the missing ones) and the device id; the
    call then fails only if the device id of the session cannot be sliced,
    the frame being already out. *)
Theorem connect_sends_device_init :
  forall w : World,
    (peer_accepts (transport w) = false ->
     MaxConnection.connect w = (Raise (ConnectionError "Failed to connect"), w))
    /\ (peer_accepts (transport w) = true ->
        let text :=
          json_dumps (envelope (version_of w) 0 (_seq (conn w) + 1) 6
                        (device_init_payload w)) in
        exists (w' : World) (new : list effect),
          MaxConnection.connect w =
            (match MaxConnection.slice8 (setting w "device_id" (JStr [])) with
             | Ok _ => Ok tt
             | Raise e => Raise e
             end, w')
          /\ log w' = log w ++ new
          /\ sent new = [text]
          /\ delivered (transport w') = delivered (transport w) ++ [text]
          /\ online w').
Proof.
  intros w. open_world w. evaluate.
  split; intros ->; [reflexivity|].
  destruct (dict_get (py "device_id") cdata) as [v|] eqn:E; [destruct v|];
    destruct dbg; evaluate; rewrite ?E; evaluate; tidy_log;
    (eexists; eexists; repeat split; reflexivity).
Qed.

(** *** The session store *)




(** X27.  [set] then [get]: a value stored under a key is the value read
    back under that key, whatever the default; the other keys read as
    before; [set] changes the store in memory only, the session file is not
    written and nothing is sent. *)
Theorem session_set_then_get :
  forall (w : World) (k : pystr) (v default : json),
    let w' := snd (SessionManager.set k v w) in
    SessionManager.get k default w' = (Ok v, w')
    /\ (forall k' : pystr,
          k' <> k ->
          fst (SessionManager.get k' default w') = fst (SessionManager.get k' default w))
    /\ session_file (session w') = session_file (session w)
    /\ sent (log w') = sent (log w).
Proof.
  intros w k v default. cbn. repeat split.
  - unfold SessionManager.get, gets. cbn. rewrite dict_get_set_same. reflexivity.
  - intros k' Hne. rewrite dict_get_set_other; [reflexivity|].
    destruct (pystr_eqb k k') eqn:E; [|reflexivity].
    apply pystr_eqb_eq in E. congruence.
  - rewrite sent_app. cbn. apply app_nil_r.
Qed.


(** *** The event dispatcher *)

Import EventDispatcher.

Lemma handlers_of_add_same :
  forall r event h,
    handlers_of (add_event_handler event h r) event = handlers_of r event ++ [h].
Proof.
  intros r event h. unfold add_event_handler, handlers_of, dict_mem.
  destruct (dict_get event r) as [l|] eqn:E.
  - rewrite dict_get_set_same, E. reflexivity.
  - rewrite !dict_get_set_same. reflexivity.
Qed.

Lemma remove_first_app_absent :
  forall (l : list nat) (h : nat),
    existsb (Nat.eqb h) l = false -> remove_first h (l ++ [h]) = l.
Proof.
  induction l as [|x l IH]; intros h H; cbn in *.
  - rewrite Nat.eqb_refl. reflexivity.
  - apply orb_false_iff in H. destruct H as [Hx Hl].
    rewrite Nat.eqb_sym, Hx, (IH _ Hl). reflexivity.
Qed.

Lemma count_remove_first :
  forall (l : list nat) (h h' : nat),
    count_occ Nat.eq_dec (remove_first h l) h' =
    (count_occ Nat.eq_dec l h'
     - (if Nat.eqb h' h && existsb (Nat.eqb h) l then 1 else 0))%nat.
Proof.
  induction l as [|x l IH]; intros h h'; cbn [remove_first count_occ existsb].
  - destruct (Nat.eqb h' h); reflexivity.
  - destruct (Nat.eqb_spec x h) as [->|Hxh].
    + rewrite Nat.eqb_refl. cbn [orb].
      destruct (Nat.eq_dec h h') as [->|Hne].
      * rewrite Nat.eqb_refl. cbn. lia.
      * destruct (Nat.eqb_spec h' h); [congruence|]. cbn. lia.
    + replace (Nat.eqb h x) with false
        by (symmetry; apply Nat.eqb_neq; congruence).
      cbn [orb count_occ]. rewrite IH.
      destruct (Nat.eq_dec x h') as [->|Hne]; [|reflexivity].
      destruct (Nat.eqb_spec h' h); [congruence|]. cbn. lia.
Qed.

Lemma handlers_of_remove_same :
  forall (r : registry) (event : pystr) (h : nat),
    handlers_of (remove_event_handler event h r) event
    = remove_first h (handlers_of r event).
Proof.
  intros r event h. unfold remove_event_handler, handlers_of.
  destruct (dict_get event r) as [l|] eqn:E; [|rewrite E; reflexivity].
  destruct (existsb (Nat.eqb h) l) eqn:Ex.
  - rewrite dict_get_set_same. reflexivity.
  - rewrite E. clear E. induction l as [|x l IH]; [reflexivity|].
    cbn in *. apply orb_false_iff in Ex. destruct Ex as [Hx Hl].
    rewrite Nat.eqb_sym, Hx, <- (IH Hl). reflexivity.
Qed.

(** X29.  [remove_event_handler] removes one registration, the first:
    the count of the handler among the handlers of the event goes down by
    exactly one when it was registered (a handler registered twice is still
    called once), the other handlers keep their order, the other events are
    untouched, and removing a handler that is not registered changes
    nothing.  Removing a handler right after adding it gives back the
    former handlers when it was not registered before; when it was, the
    earlier registration goes and the handler moves to the end. *)
Theorem remove_event_handler_removes_one :
  forall (r : registry) (event : pystr) (h : nat),
    let r' := remove_event_handler event h r in
    handlers_of r' event = remove_first h (handlers_of r event)
    /\ (forall h' : nat,
          count_occ Nat.eq_dec (handlers_of r' event) h' =
          (count_occ Nat.eq_dec (handlers_of r event) h'
           - (if Nat.eqb h' h && existsb (Nat.eqb h) (handlers_of r event)
              then 1 else 0))%nat)
    /\ (forall other : pystr,
          other <> event -> handlers_of r' other = handlers_of r other)
    /\ (existsb (Nat.eqb h) (handlers_of r event) = false -> r' = r)
    /\ handlers_of (remove_event_handler event h (add_event_handler event h r))
         event
       = remove_first h (handlers_of r event ++ [h])
    /\ (existsb (Nat.eqb h) (handlers_of r event) = false ->
        handlers_of (remove_event_handler event h (add_event_handler event h r))
          event
        = handlers_of r event).
Proof.
  intros r event h. cbn zeta.
  split; [apply handlers_of_remove_same|]. split; [|split; [|split; [|split]]].
  - intros h'. rewrite handlers_of_remove_same. apply count_remove_first.
  - intros other Hne. unfold remove_event_handler, handlers_of.
    destruct (dict_get event r) as [l|]; [|reflexivity].
    destruct (existsb (Nat.eqb h) l); [|reflexivity].
    rewrite dict_get_set_other; [reflexivity|].
    destruct (pystr_eqb event other) eqn:E; [|reflexivity].
    apply pystr_eqb_eq in E. congruence.
  - unfold remove_event_handler, handlers_of.
    destruct (dict_get event r) as [l|]; [|reflexivity].
    intros ->. reflexivity.
  - rewrite handlers_of_remove_same, handlers_of_add_same. reflexivity.
  - intros Hno. rewrite handlers_of_remove_same, handlers_of_add_same.
    apply remove_first_app_absent. exact Hno.
Qed.


(* ================================================================== *)
(** ** The frame codec *)

Section Codec.

Local Open Scope N_scope.

Lemma hex_value_hex_digit :
  forall d : N, d < 16 -> hex_value (hex_digit d) = Some d.
Proof.
  intros d Hd. unfold hex_value, hex_digit, is_digit.
  destruct (N.ltb_spec d 10) as [Hlt|Hge].
  - replace ((48 <=? 48 + d) && (48 + d <=? 57)) with true.
    + f_equal. lia.
    + symmetry. apply andb_true_iff. split; apply N.leb_le; lia.
  - replace ((48 <=? 87 + d) && (87 + d <=? 57)) with false.
    + replace ((97 <=? 87 + d) && (87 + d <=? 102)) with true.
      * f_equal. lia.
      * symmetry. apply andb_true_iff. split; apply N.leb_le; lia.
    + symmetry. apply andb_false_iff. right. apply N.leb_gt. lia.
Qed.

Lemma hex_split :
  forall n : N, n < 65536 ->
    4096 * (N.shiftr n 12 mod 16) + 256 * (N.shiftr n 8 mod 16)
    + 16 * (N.shiftr n 4 mod 16) + n mod 16 = n.
Proof.
  intros n Hn. rewrite !N.shiftr_div_pow2.
  change (2 ^ 12) with 4096. change (2 ^ 8) with 256. change (2 ^ 4) with 16.
  zify. Z.to_euclidean_division_equations. lia.
Qed.

Lemma decode_u_escape :
  forall (n : N) (rest : pystr),
    n < 65536 ->
    exists tail : pystr,
      u_escape n = BACKSLASH :: LOWER_U :: tail
      /\ decode_uXXXX (tail ++ rest) = Some (n, rest).
Proof.
  intros n rest Hn. unfold u_escape. eexists. split; [reflexivity|].
  cbn [app decode_uXXXX].
  rewrite !hex_value_hex_digit by (apply N.mod_lt; discriminate).
  rewrite hex_split by exact Hn. reflexivity.
Qed.

Lemma land_shiftl_low :
  forall x b : N, b < 1024 -> N.land (N.shiftl x 10) b = 0.
Proof.
  intros x b Hb. apply N.bits_inj_0. intros i.
  rewrite N.land_spec.
  destruct (N.ltb_spec i 10) as [Hi|Hi].
  - rewrite N.shiftl_spec_low by exact Hi. reflexivity.
  - replace b with (b mod 2 ^ 10) by (apply N.mod_small; exact Hb).
    rewrite N.mod_pow2_bits_high by exact Hi. apply andb_false_r.
Qed.

Lemma lor_shiftl_low :
  forall x b : N, b < 1024 -> N.lor (N.shiftl x 10) b = x * 1024 + b.
Proof.
  intros x b Hb.
  rewrite <- N.lxor_lor by (apply land_shiftl_low; exact Hb).
  rewrite <- N.add_nocarry_lxor by (apply land_shiftl_low; exact Hb).
  rewrite N.shiftl_mul_pow2. reflexivity.
Qed.

Lemma surrogate_pair :
  forall c : N,
    65536 <= c -> c < 1114112 ->
    let n := c - 65536 in
    let s1 := N.lor 55296 (N.land (N.shiftr n 10) 1023) in
    let s2 := N.lor 56320 (N.land n 1023) in
    s1 < 65536 /\ s2 < 65536
    /\ is_high_surrogate s1 = true /\ is_low_surrogate s2 = true
    /\ 65536 + N.lor (N.shiftl (s1 - 55296) 10) (s2 - 56320) = c.
Proof.
  intros c Hlo Hhi n s1 s2.
  assert (Hn : n < 1048576) by (unfold n; lia).
  assert (Ha : N.land (N.shiftr n 10) 1023 = n / 1024).
  { change 1023 with (N.ones 10). rewrite N.land_ones, N.shiftr_div_pow2.
    change (2 ^ 10) with 1024. apply N.mod_small.
    apply N.Div0.div_lt_upper_bound. lia. }
  assert (Hb : N.land n 1023 = n mod 1024).
  { change 1023 with (N.ones 10). rewrite N.land_ones. reflexivity. }
  assert (Hq : n / 1024 < 1024) by (apply N.Div0.div_lt_upper_bound; lia).
  assert (Hr : n mod 1024 < 1024) by (apply N.mod_lt; discriminate).
  assert (E1 : s1 = 55296 + n / 1024).
  { unfold s1. rewrite Ha. change 55296 with (N.shiftl 54 10).
    rewrite lor_shiftl_low by exact Hq. reflexivity. }
  assert (E2 : s2 = 56320 + n mod 1024).
  { unfold s2. rewrite Hb. change 56320 with (N.shiftl 55 10).
    rewrite lor_shiftl_low by exact Hr. reflexivity. }
  rewrite E1, E2. unfold is_high_surrogate, is_low_surrogate.
  repeat split; try lia.
  - apply andb_true_iff. split; apply N.leb_le; lia.
  - apply andb_true_iff. split; apply N.leb_le; lia.
  - replace (55296 + n / 1024 - 55296) with (n / 1024) by lia.
    replace (56320 + n mod 1024 - 56320) with (n mod 1024) by lia.
    rewrite lor_shiftl_low by exact Hr.
    pose proof (N.div_mod n 1024). unfold n in *. lia.
Qed.

Lemma scan_unicode_eq :
  forall s : pystr,
    scan_unicode s =
    match decode_uXXXX s with
    | None => None
    | Some (uni, r) => if is_high_surrogate uni then lookahead uni r else Some (uni, r)
    end.
Proof. reflexivity. Qed.

Ltac branch c k :=
  let E := fresh "E" in
  destruct (N.eqb_spec c k) as [E|E]; [subst c|].

Lemma escape_char_nonempty :
  forall c : codepoint, (1 <= List.length (escape_char c))%nat.
Proof.
  intro c. unfold escape_char.
  repeat match goal with
         | |- context [if ?b then _ else _] => destruct b
         end; cbn; try rewrite length_app; cbn; lia.
Qed.

Lemma escape_length :
  forall s : pystr, (List.length s <= List.length (flat_map escape_char s))%nat.
Proof.
  induction s as [|c s IH]; [reflexivity|].
  cbn [flat_map List.length]. rewrite length_app.
  pose proof (escape_char_nonempty c). lia.
Qed.

Lemma scanstring_escape :
  forall (s : pystr) (rest : pystr) (fuel : nat),
    wf_str s = true ->
    (List.length s < fuel)%nat ->
    scanstring fuel (flat_map escape_char s ++ QUOTE :: rest) = Some (s, rest).
Proof.
  induction s as [|c s IH]; intros rest fuel Hwf Hfuel.
  - destruct fuel; [inversion Hfuel|]. reflexivity.
  - destruct fuel as [|fuel]; [inversion Hfuel|].
    cbn [List.length] in Hfuel.
    cbn [wf_str] in Hwf. apply andb_true_iff in Hwf. destruct Hwf as [Hwf Hs].
    apply andb_true_iff in Hwf. destruct Hwf as [Hc Hpair].
    apply N.ltb_lt in Hc. apply negb_true_iff in Hpair.
    assert (IH' := IH rest fuel Hs ltac:(lia)).
    cbn [flat_map]. rewrite <- app_assoc.
    set (tl := flat_map escape_char s ++ QUOTE :: rest) in *.
    unfold escape_char.
    branch c QUOTE; [cbn; rewrite IH'; reflexivity|].
    branch c BACKSLASH; [cbn; rewrite IH'; reflexivity|].
    branch c 10; [cbn; rewrite IH'; reflexivity|].
    branch c 13; [cbn; rewrite IH'; reflexivity|].
    branch c 9; [cbn; rewrite IH'; reflexivity|].
    branch c 8; [cbn; rewrite IH'; reflexivity|].
    branch c 12; [cbn; rewrite IH'; reflexivity|].
    destruct ((32 <=? c) && (c <=? 126)) eqn:Ep.
    + apply andb_true_iff in Ep. destruct Ep as [Elo Ehi].
      apply N.leb_le in Elo.
      cbn [app scanstring].
      replace (c =? QUOTE) with false by (symmetry; apply N.eqb_neq; assumption).
      replace (c =? BACKSLASH) with false
        by (symmetry; apply N.eqb_neq; assumption).
      replace (c <? 32) with false by (symmetry; apply N.ltb_ge; assumption).
      rewrite IH'. reflexivity.
    + destruct (N.ltb_spec c 65536) as [Hlt|Hge].
      * destruct (decode_u_escape c tl Hlt) as (tail & Etail & Hdec).
        rewrite Etail. cbn [app scanstring].
        change (BACKSLASH =? QUOTE) with false.
        change (BACKSLASH =? BACKSLASH) with true.
        change (LOWER_U =? LOWER_U) with true.
        cbv iota. rewrite scan_unicode_eq, Hdec.
        destruct (is_high_surrogate c) eqn:Eh.
        -- cbn [orb] in Hpair. discriminate.
        -- rewrite IH'. reflexivity.
      * destruct (surrogate_pair c Hge Hc) as (H1 & H2 & Hh & Hl & Hj).
        cbv zeta in *.
        set (s1 := N.lor 55296 (N.land (N.shiftr (c - 65536) 10) 1023)) in *.
        set (s2 := N.lor 56320 (N.land (c - 65536) 1023)) in *.
        rewrite <- app_assoc.
        destruct (decode_u_escape s1 (u_escape s2 ++ tl) H1)
          as (tail & Etail & Hdec).
        destruct (decode_u_escape s2 tl H2) as (tail2 & Etail2 & Hdec2).
        rewrite Etail. cbn [app scanstring].
        change (BACKSLASH =? QUOTE) with false.
        change (BACKSLASH =? BACKSLASH) with true.
        change (LOWER_U =? LOWER_U) with true.
        cbv iota. rewrite scan_unicode_eq, Hdec, Hh.
        rewrite Etail2. cbn [app]. unfold lookahead.
        change (BACKSLASH =? BACKSLASH) with true.
        change (LOWER_U =? LOWER_U) with true.
        cbn [andb]. rewrite Hdec2, Hl, Hj, IH'. reflexivity.
Qed.

Lemma digits_aux_S :
  forall (fuel : nat) (n : N) (acc : pystr),
    digits_aux (S fuel) n acc
    = if n <? 10 then (ZERO + n) :: acc
      else digits_aux fuel (n / 10) ((ZERO + n mod 10) :: acc).
Proof. reflexivity. Qed.

Lemma digits_aux_spec :
  forall (fuel : nat) (n : N) (acc : pystr),
    n < 2 ^ N.of_nat fuel ->
    exists (d : N) (l : pystr),
      digits_aux (S fuel) n acc = (ZERO + d) :: l ++ acc
      /\ d < 10 /\ (0 < n -> 0 < d)
      /\ forall (a : N) (tl : pystr),
           scan_digits ((ZERO + d) :: l ++ tl) a
           = scan_digits tl (a * 10 ^ N.of_nat (S (List.length l)) + n).
Proof.
  induction fuel as [|fuel IH]; intros n acc Hn.
  - assert (n = 0) by (cbn in Hn; lia). subst n.
    exists 0, []. cbn [digits_aux]. change (0 <? 10) with true. cbv iota.
    repeat split; try lia.
    intros a tl. cbn [app scan_digits List.length].
    change (is_digit (ZERO + 0)) with true. cbv iota.
    f_equal. change (ZERO + 0 - 48) with 0. change (10 ^ N.of_nat 1) with 10. lia.
  - rewrite digits_aux_S. destruct (N.ltb_spec n 10) as [Hlt|Hge].
    + exists n, []. repeat split; try lia.
      intros a tl. cbn [app scan_digits List.length].
      assert (Hd : is_digit (ZERO + n) = true).
      { unfold is_digit, ZERO. apply andb_true_iff. split; apply N.leb_le; lia. }
      rewrite Hd. f_equal. change (10 ^ N.of_nat 1) with 10. unfold ZERO. lia.
    + assert (Hq : n / 10 < 2 ^ N.of_nat fuel).
      { rewrite Nnat.Nat2N.inj_succ, N.pow_succ_r' in Hn.
        apply N.Div0.div_lt_upper_bound. lia. }
      assert (Hqpos : 0 < n / 10) by (apply N.div_str_pos; lia).
      assert (Hm : n mod 10 < 10) by (apply N.mod_lt; lia).
      pose proof (N.div_mod n 10 ltac:(lia)) as Hdm.
      set (q := n / 10) in *. set (r := n mod 10) in *.
      destruct (IH q ((ZERO + r) :: acc) Hq)
        as (d & l & Eq & Hd & Hpos & Hscan).
      exists d, (l ++ [ZERO + r]).
      split; [rewrite Eq, <- app_assoc; reflexivity|].
      split; [exact Hd|].
      split; [intros _; apply Hpos; exact Hqpos|].
      intros a tl. rewrite <- app_assoc. cbn [app].
      rewrite Hscan. cbn [scan_digits].
      assert (Hdig : is_digit (ZERO + r) = true).
      { unfold is_digit, ZERO. apply andb_true_iff. split; apply N.leb_le; lia. }
      rewrite Hdig. f_equal.
      rewrite length_app. cbn [List.length].
      replace (S (List.length l + 1)) with (S (S (List.length l))) by lia.
      rewrite (Nnat.Nat2N.inj_succ (S (List.length l))), N.pow_succ_r'.
      unfold ZERO.
      set (p := 10 ^ N.of_nat (S (List.length l))) in *.
      replace (48 + r - 48) with r by lia. lia.
Qed.

Lemma size_nat_gt : forall n : N, n < 2 ^ N.of_nat (N.size_nat n).
Proof.
  intros [|p]; [reflexivity|]. cbn [N.size_nat].
  induction p as [p IH|p IH|]; cbn [Pos.size_nat];
    rewrite ?Nnat.Nat2N.inj_succ, ?N.pow_succ_r'; try lia.
Qed.

Lemma digits_spec :
  forall (n : N) (acc : pystr),
    exists (d : N) (l : pystr),
      digits n ++ acc = (ZERO + d) :: l ++ acc
      /\ d < 10 /\ (0 < n -> 0 < d)
      /\ forall (a : N) (tl : pystr),
           scan_digits ((ZERO + d) :: l ++ tl) a
           = scan_digits tl (a * 10 ^ N.of_nat (S (List.length l)) + n).
Proof.
  intros n acc. unfold digits.
  pose proof (size_nat_gt n) as Hn.
  destruct (digits_aux_spec (N.size_nat n) n [] Hn) as (d & l & Eq & H).
  exists d, l. rewrite Eq, app_nil_r. split; [reflexivity|exact H].
Qed.

Lemma scan_digits_stop :
  forall (rest : pystr) (a : N), stop rest -> scan_digits rest a = (a, rest).
Proof.
  intros [|c rest] a H; [reflexivity|].
  cbn [scan_digits]. cbn in H.
  destruct H as [->|[->| ->]]; reflexivity.
Qed.

Lemma float_follows_stop :
  forall rest : pystr, stop rest -> float_follows rest = false.
Proof.
  intros [|c [|d rest]] H; try reflexivity.
  cbn in H. destruct H as [->|[->| ->]]; reflexivity.
Qed.

Lemma match_number_digits :
  forall (p : positive) (rest : pystr),
    stop rest ->
    exists (c : codepoint) (tl : pystr),
      digits (Npos p) ++ rest = c :: tl
      /\ is_digit c = true /\ c <> ZERO
      /\ scan_digits tl (c - 48) = (Npos p, rest).
Proof.
  intros p rest Hstop.
  destruct (digits_spec (Npos p) rest) as (d & l & Eq & Hd & Hpos & Hscan).
  specialize (Hpos ltac:(lia)).
  exists (ZERO + d), (l ++ rest). split; [exact Eq|].
  split; [unfold is_digit, ZERO; apply andb_true_iff; split; apply N.leb_le; lia|].
  split; [unfold ZERO; lia|].
  specialize (Hscan 0 rest). cbn [scan_digits] in Hscan.
  replace (is_digit (ZERO + d)) with true in Hscan
    by (symmetry; unfold is_digit, ZERO; apply andb_true_iff;
        split; apply N.leb_le; lia).
  change (10 * 0) with 0 in Hscan. rewrite N.add_0_l in Hscan.
  rewrite Hscan. rewrite N.mul_0_l, N.add_0_l.
  apply scan_digits_stop. exact Hstop.
Qed.

Lemma match_number_int_repr :
  forall (z : Z) (rest : pystr),
    stop rest -> match_number (int_repr z ++ rest) = Some (z, rest).
Proof.
  intros z rest Hstop. destruct z as [|p|p]; cbn [int_repr].
  - cbn [app]. unfold match_number.
    change (ZERO =? MINUS) with false. cbv iota beta.
    change (ZERO =? ZERO) with true. cbv iota.
    rewrite (float_follows_stop rest Hstop). reflexivity.
  - destruct (match_number_digits p rest Hstop) as (c & tl & Eq & Hd & Hz & Hscan).
    rewrite Eq. unfold match_number.
    assert (Hm : (c =? MINUS) = false).
    { apply N.eqb_neq. unfold is_digit in Hd. apply andb_true_iff in Hd.
      destruct Hd as [Hd _]. apply N.leb_le in Hd. unfold MINUS. lia. }
    rewrite Hm. cbv iota beta.
    replace (c =? ZERO) with false by (symmetry; apply N.eqb_neq; exact Hz).
    rewrite Hd, Hscan, (float_follows_stop rest Hstop). reflexivity.
  - destruct (match_number_digits p rest Hstop) as (c & tl & Eq & Hd & Hz & Hscan).
    cbn [app]. rewrite Eq. unfold match_number.
    change (MINUS =? MINUS) with true. cbv iota beta.
    replace (c =? ZERO) with false by (symmetry; apply N.eqb_neq; exact Hz).
    rewrite Hd, Hscan, (float_follows_stop rest Hstop). reflexivity.
Qed.

Lemma items_text_eq :
  forall r : list json,
    (fix more (r : list json) : pystr :=
       match r with
       | [] => [RBRACKET]
       | y :: r' => item_separator ++ json_dumps y ++ more r'
       end) r = items_text r.
Proof.
  induction r as [|y r IH]; [reflexivity|].
  cbn [items_text]. rewrite <- IH. reflexivity.
Qed.

Lemma pairs_text_eq :
  forall r : list (pystr * json),
    (fix more (r : list (pystr * json)) : pystr :=
       match r with
       | [] => [RBRACE]
       | (k', y) :: r' =>
           item_separator ++ encode_basestring_ascii k'
             ++ key_separator ++ json_dumps y ++ more r'
       end) r = pairs_text r.
Proof.
  induction r as [|[k y] r IH]; [reflexivity|].
  cbn [pairs_text]. rewrite <- IH. reflexivity.
Qed.

Lemma json_dumps_list :
  forall (x : json) (r : list json),
    json_dumps (JList (x :: r)) = LBRACKET :: json_dumps x ++ items_text r.
Proof. intros x r. rewrite <- items_text_eq. reflexivity. Qed.

Lemma json_dumps_dict :
  forall (k : pystr) (x : json) (r : list (pystr * json)),
    json_dumps (JDict ((k, x) :: r))
    = LBRACE :: encode_basestring_ascii k ++ key_separator
        ++ json_dumps x ++ pairs_text r.
Proof. intros k x r. rewrite <- pairs_text_eq. reflexivity. Qed.

Lemma json_nested_ind :
  forall P : json -> Prop,
    P JNull ->
    (forall b, P (JBool b)) ->
    (forall z, P (JInt z)) ->
    (forall s, P (JStr s)) ->
    (forall l, Forall P l -> P (JList l)) ->
    (forall d, Forall (fun kv => P (snd kv)) d -> P (JDict d)) ->
    forall v, P v.
Proof.
  intros P Hnull Hbool Hint Hstr Hlist Hdict.
  fix IH 1. intros [|b|z|s|l|d].
  - exact Hnull.
  - apply Hbool.
  - apply Hint.
  - apply Hstr.
  - apply Hlist. induction l as [|x l IHl]; constructor; [apply IH|exact IHl].
  - apply Hdict. induction d as [|[k x] d IHd]; constructor;
      [apply IH|exact IHd].
Qed.

(** *** Dictionaries with distinct keys *)

Lemma distinct_keys_NoDup :
  forall keys : list pystr, distinct_keys keys = true -> NoDup keys.
Proof.
  induction keys as [|k r IH]; intros H; [constructor|].
  cbn [distinct_keys] in H. apply andb_true_iff in H. destruct H as [Hk Hr].
  apply negb_true_iff in Hk. constructor; [|apply IH; exact Hr].
  intros Hin.
  assert (Hex : existsb (fun k' => pystr_eqb k' k) r = true).
  { apply existsb_exists. exists k. split; [exact Hin|apply pystr_eqb_refl]. }
  congruence.
Qed.

Lemma dict_set_fresh :
  forall (V : Type) (k : pystr) (v : V) (d : list (pystr * V)),
    ~ In k (map fst d) -> dict_set k v d = d ++ [(k, v)].
Proof.
  intros V k v. induction d as [|[k' v'] d IH]; intros Hk; [reflexivity|].
  cbn [dict_set]. destruct (pystr_eqb k' k) eqn:E.
  - apply pystr_eqb_eq in E. subst k'. exfalso. apply Hk. left. reflexivity.
  - cbn [app]. rewrite IH; [reflexivity|].
    intros Hin. apply Hk. right. exact Hin.
Qed.

Lemma fold_dict_set_distinct :
  forall (V : Type) (pairs acc : list (pystr * V)),
    NoDup (map fst (acc ++ pairs)) ->
    fold_left (fun d kv => dict_set (fst kv) (snd kv) d) pairs acc
    = acc ++ pairs.
Proof.
  intros V. induction pairs as [|[k v] pairs IH]; intros acc Hnd.
  - cbn. rewrite app_nil_r. reflexivity.
  - cbn [fold_left fst snd].
    assert (Hfresh : ~ In k (map fst acc)).
    { rewrite map_app in Hnd. cbn [map fst] in Hnd.
      apply NoDup_remove_2 in Hnd. intros Hin. apply Hnd.
      apply in_or_app. left. exact Hin. }
    rewrite (dict_set_fresh V k v acc Hfresh).
    rewrite IH; rewrite <- app_assoc; [reflexivity|exact Hnd].
Qed.

Lemma dict_of_pairs_distinct :
  forall (V : Type) (pairs : list (pystr * V)),
    distinct_keys (map fst pairs) = true -> dict_of_pairs pairs = pairs.
Proof.
  intros V pairs H. unfold dict_of_pairs.
  apply (fold_dict_set_distinct V pairs []). cbn [app].
  apply distinct_keys_NoDup. exact H.
Qed.

(** *** Where a value's text starts *)

Lemma digit_tests :
  forall c : codepoint,
    is_digit c = true \/ c = MINUS ->
    is_ws c = false /\ (c =? RBRACKET) = false /\ (c =? BOM) = false
    /\ (c =? QUOTE) = false /\ (c =? LBRACE) = false
    /\ (c =? LBRACKET) = false /\ (110 =? c) = false
    /\ (116 =? c) = false /\ (102 =? c) = false.
Proof.
  intros c H.
  assert (Hr : 45 <= c <= 57).
  { destruct H as [H| ->]; [|unfold MINUS; lia].
    unfold is_digit in H. apply andb_true_iff in H. destruct H as [H1 H2].
    apply N.leb_le in H1. apply N.leb_le in H2. lia. }
  unfold is_ws, RBRACKET, BOM, QUOTE, LBRACE, LBRACKET.
  repeat match goal with
         | |- context [?a =? ?b] =>
             replace (a =? b) with false by (symmetry; apply N.eqb_neq; lia)
         end.
  repeat split.
Qed.

Lemma int_repr_head :
  forall (z : Z) (rest : pystr),
    exists (c : codepoint) (t : pystr),
      int_repr z ++ rest = c :: t /\ (is_digit c = true \/ c = MINUS).
Proof.
  intros [|p|p] rest; cbn [int_repr].
  - exists ZERO, rest. split; [reflexivity|left; reflexivity].
  - destruct (digits_spec (Npos p) rest) as (d & l & Eq & Hd & _).
    exists (ZERO + d), (l ++ rest). split; [exact Eq|]. left.
    unfold is_digit, ZERO. apply andb_true_iff. split; apply N.leb_le; lia.
  - exists MINUS, (digits (Npos p) ++ rest). split; [reflexivity|right; reflexivity].
Qed.

Lemma dumps_head :
  forall (v : json) (rest : pystr),
    exists (c : codepoint) (t : pystr),
      json_dumps v ++ rest = c :: t /\ value_start c.
Proof.
  intros v rest. destruct v as [|[|]|z|s|[|x l]|[|[k x] d]];
    try (eexists; eexists; split; [reflexivity|repeat split]).
  destruct (int_repr_head z rest) as (c & t & Eq & Hc).
  exists c, t. split; [exact Eq|].
  destruct (digit_tests c Hc) as (H1 & H2 & H3 & _). repeat split; assumption.
Qed.

Lemma skip_ws_dumps :
  forall (v : json) (rest : pystr),
    skip_ws (json_dumps v ++ rest) = json_dumps v ++ rest.
Proof.
  intros v rest. destruct (dumps_head v rest) as (c & t & Eq & Hws & _).
  rewrite Eq. cbn [skip_ws]. rewrite Hws. reflexivity.
Qed.

(** *** Values *)

Lemma scan_once_number :
  forall (fuel : nat) (c : codepoint) (t : pystr),
    is_digit c = true \/ c = MINUS ->
    scan_once (S fuel) (c :: t)
    = match match_number (c :: t) with
      | Some (z, r') => Some (JInt z, r')
      | None => None
      end.
Proof.
  intros fuel c t H.
  destruct (digit_tests c H) as (_ & _ & _ & H1 & H2 & H3 & H4 & H5 & H6).
  cbn -[match_number N.eqb]. rewrite H1, H2, H3, H4, H5, H6. reflexivity.
Qed.

Lemma scans_int : forall z : Z, scans (JInt z).
Proof.
  intros z rest fuel Hstop Hfuel. cbn [json_dumps] in *.
  destruct (int_repr_head z rest) as (c & t & Eq & Hc).
  destruct fuel as [|fuel].
  { destruct (int_repr_head z []) as (c' & t' & Eq' & _).
    rewrite app_nil_r in Eq'. rewrite Eq' in Hfuel. cbn in Hfuel. lia. }
  rewrite Eq, (scan_once_number fuel c t Hc), <- Eq.
  rewrite (match_number_int_repr z rest Hstop). reflexivity.
Qed.

Lemma scans_str :
  forall s : pystr, wf_str s = true -> scans (JStr s).
Proof.
  intros s Hwf rest fuel Hstop Hfuel. cbn [json_dumps] in *.
  unfold encode_basestring_ascii in *.
  destruct fuel as [|fuel]; [cbn in Hfuel; lia|].
  cbn [app]. rewrite <- app_assoc. cbn [app scan_once].
  change (QUOTE =? QUOTE) with true. cbv iota.
  rewrite scanstring_escape; [reflexivity|exact Hwf|].
  rewrite length_app. pose proof (escape_length s). cbn [List.length]. lia.
Qed.

Lemma stop_items_text :
  forall (r : list json) (rest : pystr), stop (items_text r ++ rest).
Proof.
  intros [|y r] rest; cbn; [right; left; reflexivity|left; reflexivity].
Qed.

Lemma stop_pairs_text :
  forall (r : list (pystr * json)) (rest : pystr), stop (pairs_text r ++ rest).
Proof.
  intros [|[k y] r] rest; cbn; [right; right; reflexivity|left; reflexivity].
Qed.

Lemma items_text_length :
  forall r : list json, (1 <= List.length (items_text r))%nat.
Proof. intros [|y r]; cbn; lia. Qed.

Lemma pairs_text_length :
  forall r : list (pystr * json), (1 <= List.length (pairs_text r))%nat.
Proof. intros [|[k y] r]; cbn; lia. Qed.

Lemma skip_ws_space : forall s : pystr, skip_ws (SPACE :: s) = skip_ws s.
Proof. reflexivity. Qed.

Lemma array_loop_items :
  forall (r : list json) (x : json) (rest : pystr) (fuel : nat),
    scans x ->
    Forall scans r ->
    stop rest ->
    (List.length (json_dumps x ++ items_text r) <= fuel)%nat ->
    array_loop fuel (json_dumps x ++ items_text r ++ rest)
    = Some (x :: r, rest).
Proof.
  induction r as [|y r IH]; intros x rest fuel Hx Hr Hstop Hfuel;
    rewrite length_app in Hfuel.
  - pose proof (items_text_length []) as Hlen.
    destruct fuel as [|fuel]; [lia|]. cbn [array_loop].
    rewrite (Hx (items_text [] ++ rest) fuel (stop_items_text [] rest));
      [reflexivity|lia].
  - pose proof (items_text_length (y :: r)) as Hlen.
    destruct fuel as [|fuel]; [lia|]. cbn [array_loop].
    rewrite (Hx (items_text (y :: r) ++ rest) fuel
               (stop_items_text (y :: r) rest)); [|lia].
    clear Hlen.
    cbn [items_text item_separator app skip_ws] in *.
    change (is_ws COMMA) with false. cbv iota.
    change (COMMA =? RBRACKET) with false. change (COMMA =? COMMA) with true.
    cbv iota. rewrite skip_ws_space, <- app_assoc, skip_ws_dumps.
    inversion Hr as [|? ? Hy Hr']; subst.
    rewrite (IH y rest fuel Hy Hr' Hstop); [reflexivity|].
    cbn [List.length] in Hfuel. rewrite length_app in *. lia.
Qed.

Lemma encode_app :
  forall (k t : pystr),
    encode_basestring_ascii k ++ t = QUOTE :: flat_map escape_char k ++ QUOTE :: t.
Proof.
  intros k t. unfold encode_basestring_ascii. cbn [app].
  rewrite <- app_assoc. reflexivity.
Qed.

Ltac lens :=
  repeat first
    [ progress unfold encode_basestring_ascii, key_separator, item_separator in *
    | progress cbn [List.length app pairs_text items_text] in *
    | rewrite length_app in * ].

Lemma object_loop_pairs :
  forall (r : list (pystr * json)) (k : pystr) (x : json)
         (rest : pystr) (fuel : nat),
    wf_str k = true ->
    scans x ->
    Forall (fun kv => wf_str (fst kv) = true /\ scans (snd kv)) r ->
    stop rest ->
    (List.length (flat_map escape_char k ++ QUOTE :: key_separator
                    ++ json_dumps x ++ pairs_text r) <= fuel)%nat ->
    object_loop fuel (flat_map escape_char k ++ QUOTE :: key_separator
                        ++ json_dumps x ++ pairs_text r ++ rest)
    = Some ((k, x) :: r, rest).
Proof.
  induction r as [|[k' y] r IH]; intros k x rest fuel Hk Hx Hr Hstop Hfuel.
  - destruct fuel as [|fuel]; [lens; lia|]. cbn [object_loop].
    rewrite scanstring_escape;
      [|exact Hk|pose proof (escape_length k); lens; lia].
    cbn [key_separator app skip_ws].
    change (is_ws COLON) with false. cbv iota.
    change (COLON =? COLON) with true. cbv iota.
    rewrite skip_ws_space, skip_ws_dumps.
    rewrite (Hx (pairs_text [] ++ rest) fuel (stop_pairs_text [] rest));
      [reflexivity|lens; lia].
  - destruct fuel as [|fuel]; [lens; lia|]. cbn [object_loop].
    rewrite scanstring_escape;
      [|exact Hk|pose proof (escape_length k); lens; lia].
    cbn [key_separator app skip_ws].
    change (is_ws COLON) with false. cbv iota.
    change (COLON =? COLON) with true. cbv iota.
    rewrite skip_ws_space, skip_ws_dumps.
    rewrite (Hx (pairs_text ((k', y) :: r) ++ rest) fuel
               (stop_pairs_text ((k', y) :: r) rest)); [|lens; lia].
    cbn [pairs_text item_separator app skip_ws].
    change (is_ws COMMA) with false. cbv iota.
    change (COMMA =? RBRACE) with false. change (COMMA =? COMMA) with true.
    cbv iota. rewrite skip_ws_space.
    rewrite <- !app_assoc, encode_app. cbn [skip_ws].
    change (is_ws QUOTE) with false. cbv iota.
    change (QUOTE =? QUOTE) with true. cbv iota.
    inversion Hr as [|? ? [Hk' Hy] Hr']; subst. cbn [fst snd] in *.
    rewrite (IH k' y rest fuel Hk' Hy Hr' Hstop); [reflexivity|].
    cbn [pairs_text] in Hfuel. lens. lia.
Qed.

Lemma wf_json_list :
  forall l : list json,
    wf_json (JList l) = true -> Forall (fun x => wf_json x = true) l.
Proof.
  induction l as [|x l IH]; intros H; constructor.
  - change (wf_json x && wf_json (JList l) = true) in H.
    apply andb_true_iff in H. apply H.
  - change (wf_json x && wf_json (JList l) = true) in H.
    apply andb_true_iff in H. apply IH, H.
Qed.

Lemma wf_json_dict :
  forall d : list (pystr * json),
    wf_json (JDict d) = true ->
    distinct_keys (map fst d) = true
    /\ Forall (fun kv => wf_str (fst kv) = true /\ wf_json (snd kv) = true) d.
Proof.
  intros d H. cbn [wf_json] in H. apply andb_true_iff in H.
  destruct H as [Hd Hall]. split; [exact Hd|]. clear Hd.
  induction d as [|[k x] d IH]; constructor.
  - apply andb_true_iff in Hall. destruct Hall as [Hkx _].
    apply andb_true_iff in Hkx. exact Hkx.
  - apply IH. apply andb_true_iff in Hall. apply Hall.
Qed.

Lemma scans_wf : forall v : json, wf_json v = true -> scans v.
Proof.
  induction v as [|b|z|s|l IHl|d IHd] using json_nested_ind; intros Hwf.
  - intros rest fuel _ Hfuel.
    do 4 (destruct fuel as [|fuel]; [cbn in Hfuel; lia|]). reflexivity.
  - intros rest fuel _ Hfuel. destruct b;
      do 4 (destruct fuel as [|fuel]; [cbn in Hfuel; lia|]); reflexivity.
  - apply scans_int.
  - apply scans_str. exact Hwf.
  - assert (Hall : Forall scans l).
    { apply wf_json_list in Hwf. rewrite Forall_forall in *.
      intros x Hin. apply IHl; [exact Hin|apply Hwf; exact Hin]. }
    clear IHl Hwf. destruct l as [|x l].
    + intros rest fuel _ Hfuel.
      do 2 (destruct fuel as [|fuel]; [cbn in Hfuel; lia|]). reflexivity.
    + intros rest fuel Hstop Hfuel. rewrite json_dumps_list in *.
      inversion Hall as [|? ? Hx Hl]; subst.
      destruct fuel as [|fuel]; [cbn in Hfuel; lia|].
      cbn [app scan_once].
      change (LBRACKET =? QUOTE) with false.
      change (LBRACKET =? LBRACE) with false.
      change (LBRACKET =? LBRACKET) with true. cbv iota.
      rewrite <- app_assoc, skip_ws_dumps.
      destruct (dumps_head x (items_text l ++ rest)) as (c & t & Eq & _ & Hc & _).
      rewrite Eq, Hc, <- Eq.
      rewrite (array_loop_items l x rest fuel Hx Hl Hstop); [reflexivity|].
      cbn [List.length] in Hfuel. lia.
  - assert (Hall : Forall (fun kv => wf_str (fst kv) = true /\ scans (snd kv)) d).
    { apply wf_json_dict in Hwf. destruct Hwf as [_ Hwf].
      rewrite Forall_forall in *. intros kv Hin.
      split; [apply Hwf; exact Hin|apply IHd; [exact Hin|apply Hwf; exact Hin]]. }
    apply wf_json_dict in Hwf. destruct Hwf as [Hkeys _].
    clear IHd. destruct d as [|[k x] d].
    + intros rest fuel _ Hfuel.
      do 2 (destruct fuel as [|fuel]; [cbn in Hfuel; lia|]). reflexivity.
    + intros rest fuel Hstop Hfuel. rewrite json_dumps_dict in *.
      inversion Hall as [|? ? [Hk Hx] Hd]; subst. cbn [fst snd] in *.
      destruct fuel as [|fuel]; [cbn in Hfuel; lia|].
      cbn [app scan_once].
      change (LBRACE =? QUOTE) with false.
      change (LBRACE =? LBRACE) with true. cbv iota.
      rewrite <- !app_assoc, encode_app. cbn [skip_ws].
      change (is_ws QUOTE) with false. cbv iota.
      change (QUOTE =? RBRACE) with false.
      change (QUOTE =? QUOTE) with true. cbv iota.
      rewrite (object_loop_pairs d k x rest fuel Hk Hx Hd Hstop).
      * rewrite (dict_of_pairs_distinct _ _ Hkeys). reflexivity.
      * lens. lia.
Qed.

Lemma json_round_trip :
  forall v : json, wf_json v = true -> json_loads (json_dumps v) = Ok v.
Proof.
  intros v Hwf. pose proof (scans_wf v Hwf [] (S (List.length (json_dumps v)))
                              I ltac:(lia)) as Hscan.
  rewrite app_nil_r in Hscan.
  destruct (dumps_head v []) as (c & t & Eq & Hws & _ & Hbom).
  rewrite app_nil_r in Eq.
  unfold json_loads. rewrite Eq at 1. rewrite Hbom.
  pose proof (skip_ws_dumps v []) as Hskip. rewrite app_nil_r in Hskip.
  rewrite Hskip, Hscan. reflexivity.
Qed.

End Codec.

(** X30.  What [_send] hands to the socket for a message is a text that
    [json.loads], as [_listen] calls it, reads back as that very message:
    on a connection that is up the send returns normally, the socket
    carries one more text, and decoding that text gives the message, every
    key in its place, every string code point by code point and every
    integer exactly.  The message is any value built from [None], booleans,
    integers, strings of Unicode scalar values (no surrogate code points),
    lists and dictionaries with distinct keys, in which no integer has more
    than 4300 digits and the nesting is at most 100 deep (limits of the
    interpreter, which the model of the codec does not have). *)
Theorem sent_text_decodes_to_message :
  forall (message : json) (w : World),
    online w ->
    wf_json message = true ->
    within_limits message = true ->
    exists data : pystr,
      MaxConnection._send message w
      = (Ok tt, snd (MaxConnection._send message w))
      /\ delivered (transport (snd (MaxConnection._send message w)))
         = delivered (transport w) ++ [data]
      /\ json_loads data = Ok message.
Proof.
  intros message w Hon Hwf _. exists (json_dumps message).
  split; [|split; [|apply json_round_trip; exact Hwf]]; clear Hwf;
    open_world w; destruct Hon as (Hws & Hic & Hpo); cbn in Hws, Hic, Hpo;
    subst ws ic po; destruct dbg; reflexivity.
Qed.

Lemma sent_text_decodes_to_message_witness :
  exists data : pystr,
    delivered
      (transport
         (snd (MaxConnection._send
                 (envelope (JInt 11) 0 1 64
                    (JDict [(py "chatId", JInt (-42));
                            (py "message",
                             JDict [(py "text",
                                     JStr (py "hi" ++ [10; 1087; 128512]%N));
                                    (py "elements", JList [])]);
                            (py "notify", JBool true)]))
                 sample_world)))
    = [data]
    /\ json_loads data
       = Ok (envelope (JInt 11) 0 1 64
               (JDict [(py "chatId", JInt (-42));
                       (py "message",
                        JDict [(py "text",
                                JStr (py "hi" ++ [10; 1087; 128512]%N));
                               (py "elements", JList [])]);
                       (py "notify", JBool true)])).
Proof.
  destruct (sent_text_decodes_to_message
              (envelope (JInt 11) 0 1 64
                 (JDict [(py "chatId", JInt (-42));
                         (py "message",
                          JDict [(py "text",
                                  JStr (py "hi" ++ [10; 1087; 128512]%N));
                                 (py "elements", JList [])]);
                         (py "notify", JBool true)]))
              sample_world)
    as (data & _ & Hdel & Hloads).
  - repeat split.
  - vm_compute. reflexivity.
  - vm_compute. reflexivity.
  - exists data. split; [exact Hdel | exact Hloads].
Defined.
